(** * MCP orchestrator client: tool registry, provider adapters and the
      query driver of [index.ts], [src/llm/anthropic.ts] and [src/llm/gpt.ts].

    JavaScript strings are modelled by [string]; one character stands for
    one code unit.  Promises are modelled by their settled value: a
    rejected promise (or a [throw]) is an [Error], and every [await] is a
    step of a state-and-error monad. *)

From Stdlib Require Import Ascii String DecimalString.
From stdpp Require Import gmap strings list fin_maps.

(** ** JavaScript string primitives used by the orchestrator *)

Module JsString.

(** The character class [[a-zA-Z0-9_-]] of the sanitizing regexp. *)
Definition in_class (c : ascii) : bool :=
  let n := nat_of_ascii c in
  (((97 <=? n) && (n <=? 122)) || ((65 <=? n) && (n <=? 90))
   || ((48 <=? n) && (n <=? 57)) || (n =? 95) || (n =? 45))%nat.

Definition underscore : ascii := "_"%char.

(** [s.replace(/[^a-zA-Z0-9_-]/g, "_")]: every code unit outside the class
    becomes one underscore. *)
Fixpoint sanitize (s : string) : string :=
  match s with
  | EmptyString => EmptyString
  | String c r => String (if in_class c then c else underscore) (sanitize r)
  end.

(** [s.split("_")[0]]: the part of [s] before its first underscore, the
    whole of [s] when it has none. *)
Fixpoint split_head (s : string) : string :=
  match s with
  | EmptyString => EmptyString
  | String c r =>
      if Ascii.eqb c underscore then EmptyString else String c (split_head r)
  end.

Fixpoint starts_with (p s : string) : bool :=
  match p, s with
  | EmptyString, _ => true
  | String _ _, EmptyString => false
  | String a p', String b s' => Ascii.eqb a b && starts_with p' s'
  end.

Fixpoint drop (n : nat) (s : string) : string :=
  match n, s with
  | O, _ => s
  | S _, EmptyString => EmptyString
  | S n', String _ r => drop n' r
  end.

(** [s.replace(pat, rep)] with a string pattern: only the leftmost
    occurrence of [pat] is replaced ([rep] holds no [$] here, it is taken
    literally). *)
Fixpoint replace (pat rep s : string) : string :=
  if starts_with pat s then rep +:+ drop (String.length pat) s
  else match s with
       | EmptyString => EmptyString
       | String c r => String c (replace pat rep r)
       end.

(** [xs.join(sep)]. *)
Fixpoint join (sep : string) (xs : list string) : string :=
  match xs with
  | [] => EmptyString
  | [x] => x
  | x :: r => x +:+ sep +:+ join sep r
  end.

End JsString.

(** ** JSON values, [JSON.stringify] *)

(** A parsed JSON value; object members keep their order.  Of the numbers
    only the integers of magnitude up to 2^53 are modelled: a JavaScript
    number holds each of them exactly and [JSON.stringify] prints it in
    plain decimal.  Fractions and larger magnitudes, which are rounded and
    from 1e21 on printed with an exponent, have no value here. *)
#[warnings="-register-all"]
Inductive Json : Type :=
| JNull
| JBool (b : bool)
| JNum (n : Z)
| JStr (s : string)
| JArr (items : list Json)
| JObj (members : list (string * Json)).

Module JSON.

Definition hex_digit (n : nat) : ascii :=
  ascii_of_nat (if (n <? 10)%nat then 48 + n else 87 + n)%nat.

Definition dquote : string := String (ascii_of_nat 34) EmptyString.
Definition backslash : string := String (ascii_of_nat 92) EmptyString.

(** One code unit inside a quoted JSON string. *)
Definition quote_char (c : ascii) : string :=
  let n := nat_of_ascii c in
  if (n =? 34)%nat then backslash +:+ dquote
  else if (n =? 92)%nat then backslash +:+ backslash
  else if (n =? 8)%nat then backslash +:+ "b"
  else if (n =? 12)%nat then backslash +:+ "f"
  else if (n =? 10)%nat then backslash +:+ "n"
  else if (n =? 13)%nat then backslash +:+ "r"
  else if (n =? 9)%nat then backslash +:+ "t"
  else if (n <? 32)%nat then
    backslash +:+ "u00"
    +:+ String (hex_digit (n / 16)%nat) (String (hex_digit (n mod 16)%nat) EmptyString)
  else String c EmptyString.

Fixpoint quote_body (s : string) : string :=
  match s with
  | EmptyString => EmptyString
  | String c r => quote_char c +:+ quote_body r
  end.

Definition quote (s : string) : string := dquote +:+ quote_body s +:+ dquote.

(** [JSON.stringify(v)] for a JSON value [v], without indentation. *)
Fixpoint stringify (v : Json) : string :=
  match v with
  | JNull => "null"
  | JBool true => "true"
  | JBool false => "false"
  | JNum n => NilZero.string_of_int (Z.to_int n)
  | JStr s => quote s
  | JArr items =>
      "[" +:+ JsString.join "," (List.map stringify items) +:+ "]"
  | JObj members =>
      "{" +:+ JsString.join ","
                (List.map (fun kv => quote (fst kv) +:+ ":" +:+ stringify (snd kv))
                          members)
          +:+ "}"
  end.

End JSON.

(** ** Data model *)

(** A thrown value or the reason of a rejected promise. *)
Inductive Error : Type :=
| JsError (message : string)   (* [new Error(message)] *)
| TypeError                    (* property read on [undefined] *)
| SyntaxError                  (* [JSON.parse] on malformed text *)
| Rejected (reason : string).  (* a collaborator's promise was rejected *)

Definition UnknownToolError (name : string) : Error :=
  JsError ("Unknown tool name: " +:+ name).
Definition UnknownServerError (name : string) : Error :=
  JsError ("Unknown server: " +:+ name).

Inductive Role : Type := system | user | assistant | tool.

Inductive ToolChoice : Type := auto | none.

(** [{ id, function: { name, arguments } }], a tool call issued by the model. *)
Record FunctionCall : Type :=
  { fc_name : string; fc_arguments : string }.
Record ToolCall : Type :=
  { tc_id : string; tc_function : FunctionCall }.

(** A message of the history; a field the object literal leaves out is
    [None]. *)
Record Message : Type :=
  { role : Role;
    content : option string;
    tool_calls : option (list ToolCall);
    tool_call_id : option string }.

(** [OpenAI.ChatCompletionTool]. *)
Record FunctionDefinition : Type :=
  { fd_name : string; fd_description : string; fd_parameters : Json }.
Record ChatCompletionTool : Type :=
  { tool_type : string; tool_function : FunctionDefinition }.

(** The uniform response shape: [choices[i].message.{content, tool_calls}]. *)
Record ResponseMessage : Type :=
  { rm_content : option string; rm_tool_calls : option (list ToolCall) }.
Record Choice : Type := { message : option ResponseMessage }.
Record ModelResponse : Type := { choices : list Choice }.

(** A tool as a backend lists it, and the payload of [callTool]. *)
Record NativeTool : Type :=
  { nt_name : string; nt_description : option string; nt_inputSchema : Json }.
Record ToolResult : Type := { tr_content : option Json }.

(** What the orchestrator does to the outside world during a query, in
    order: calls of the provider adapter and calls of a backend tool. *)
Inductive Event : Type :=
| EvChat (msgs : list Message) (tools : option (list ChatCompletionTool))
         (choice : option ToolChoice) (reply : Error + ModelResponse)
| EvCallTool (server name : string) (arguments : Json)
             (reply : Error + ToolResult).

Definition is_chat (e : Event) : bool :=
  match e with EvChat _ _ _ _ => true | _ => false end.

Definition is_call_tool (e : Event) : bool :=
  match e with EvCallTool _ _ _ _ => true | _ => false end.

(** The number of model calls in a trace. *)
Definition model_calls (tr : list Event) : nat := length (List.filter is_chat tr).

Record StdioClientTransport : Type :=
  { command : string;
    args : list string;
    env : option (list (string * string)) }.

(** A connected MCP client.  A backend may answer [callTool] according to
    everything that happened before, so it sees the events so far. *)
Record Client : Type :=
  { client_name : string;
    listTools : Error + list NativeTool;
    callTool : list Event -> string -> Json -> Error + ToolResult }.

Record MCPServer : Type :=
  { name : string;
    client : Client;
    transport : StdioClientTransport;
    functions : list ChatCompletionTool }.

(** Modelled from the spec: the interface [LLM] of [src/llm/llm], which
    [index.ts] imports and both adapters implement:
    [chat(messages, tools = empty, toolChoice = auto) -> ModelResponse].  An
    argument the caller leaves out is [None]. *)
Class LLM : Type :=
  { chat : list Event -> list Message -> option (list ChatCompletionTool) ->
           option ToolChoice -> Error + ModelResponse }.

(** The field [servers] is a JavaScript [Map], which yields its entries in
    the order in which their keys were first set: [servers] holds the
    bindings and [servers_order] the keys in that order. *)
Record MCPOrchestrator : Type :=
  { llm : LLM;
    systemPrompt : string;
    servers : gmap string MCPServer;
    servers_order : list string;
    allFunctions : list ChatCompletionTool }.

(** The runtime the module runs on. *)
Class Platform : Type :=
  { JSON_parse : string -> option Json;
    process_platform : string;
    process_execPath : string;
    (** [new Client({name}); await client.connect(transport)] *)
    connect : string -> StdioClientTransport -> Error + Client;
    (** [Object.entries(JSON.parse(await fs.readFile(path, "utf-8")))], typed
        by the annotation of [config] *)
    readConfig : string -> Error + list (string * StdioClientTransport) }.

(** ** A state-and-error monad for the asynchronous code *)

Definition M (S A : Type) : Type := S -> (Error + A) * S.

Definition ret {S A} (a : A) : M S A := fun s => (inr a, s).
Definition throw {S A} (e : Error) : M S A := fun s => (inl e, s).
Definition bind {S A B} (m : M S A) (k : A -> M S B) : M S B :=
  fun s => match m s with
           | (inl e, s') => (inl e, s')
           | (inr a, s') => k a s'
           end.
Definition modify {S} (f : S -> S) : M S unit := fun s => (inr tt, f s).
(** [await p] for a promise already settled to [r]. *)
Definition await {S A} (r : Error + A) : M S A := fun s => (r, s).

Declare Scope js_scope.
Delimit Scope js_scope with js.
Notation "x <- m ;; k" := (bind m (fun x => k))
  (at level 100, m at next level, right associativity) : js_scope.
Notation "m ;;; k" := (bind m (fun _ => k))
  (at level 100, right associativity) : js_scope.

(** [for (const x of xs) body(x)] *)
Fixpoint for_of {S A} (xs : list A) (body : A -> M S unit) : M S unit :=
  match xs with
  | [] => ret tt
  | x :: r => bind (body x) (fun _ => for_of r body)
  end.

(** [a ?? b] on an optional string. *)
Definition nullish (a : option string) (b : string) : string :=
  match a with Some s => s | None => b end.

(** An interpolated [${x}] of a possibly [undefined] string. *)
Definition interpolate (x : option string) : string :=
  match x with Some s => s | None => "undefined" end.

(** ** Provider adapters *)

Definition is_system (m : Message) : bool :=
  match role m with system => true | _ => false end.

(** [messages.find(m => m.role === "system")?.content] *)
Definition system_content (messages : list Message) : option string :=
  List.find is_system messages ≫= content.

Module Gpt.

Record Request : Type :=
  { model : string;
    messages : list Message;
    tools : list ChatCompletionTool;
    tool_choice : ToolChoice }.

(** [openai.chat.completions.create]; its answer already has the uniform
    shape. *)
Definition Sdk : Type := list Event -> Request -> Error + ModelResponse.

(** [GPT.chat] of [src/llm/gpt.ts]. *)
Definition chat (openai : Sdk) (h : list Event) (messages : list Message)
    (tools : option (list ChatCompletionTool))
    (tool_choice : option ToolChoice) : Error + ModelResponse :=
  let tools := default [] tools in
  let tool_choice := default auto tool_choice in
  openai h {| model := "gpt-4-1106-preview";
              messages := messages;
              tools := tools;
              tool_choice := tool_choice |}.

End Gpt.

Definition GPT (openai : Gpt.Sdk) : LLM := {| chat := Gpt.chat openai |}.

Module Anthropic.

(** A content block of a native response: [type] and the fields the block
    kinds carry ([text] for text blocks; [id], [name], [input] for
    tool-use blocks). *)
Record ContentBlock : Type :=
  { type : string;
    text : option Json;
    id : option string;
    name : option string;
    input : option Json }.

Record NativeMessage : Type := { content : list ContentBlock }.

Record Request : Type :=
  { model : string;
    messages : list Message;
    system : option string;
    tools : list ChatCompletionTool;
    max_tokens : Z }.

(** [anthropic.messages.create]. *)
Definition Sdk : Type := list Event -> Request -> Error + NativeMessage.

Definition isTextBlock (block : ContentBlock) : bool :=
  String.eqb (type block) "text"
  && match text block with Some (JStr _) => true | _ => false end.

Definition text_of (block : ContentBlock) : option string :=
  match text block with Some (JStr s) => Some s | _ => None end.

(** [Claude.chat] of [src/llm/anthropic.ts]. *)
Definition chat (anthropic : Sdk) (h : list Event) (messages : list Message)
    (tools : option (list ChatCompletionTool))
    (tool_choice : option ToolChoice) : Error + ModelResponse :=
  let tools := default [] tools in
  match anthropic h {| model := "claude-3-opus-20240229";
                       messages := messages;
                       system := system_content messages;
                       tools := tools;
                       max_tokens := 1024 |} with
  | inl e => inl e
  | inr res =>
      let firstTextBlock := List.find isTextBlock (content res) in
      inr {| choices :=
               [ {| message :=
                      Some {| rm_content :=
                                Some (nullish (firstTextBlock ≫= text_of)
                                              EmptyString);
                              rm_tool_calls := Some [] |} |} ] |}
  end.

End Anthropic.

Definition Claude (anthropic : Anthropic.Sdk) : LLM :=
  {| chat := Anthropic.chat anthropic |}.

(** ** The orchestrator *)

(** The state of one [processQuery] call: its local [messages] array and
    the events performed so far. *)
Record Run : Type := { messages : list Message; trace : list Event }.

Definition ends_with (suffix s : string) : bool :=
  JsString.starts_with suffix
    (JsString.drop (String.length s - String.length suffix) s)
  && (String.length suffix <=? String.length s)%nat.

(** The callback of [toolsResult.tools.map(...)], the same in
    [registerServer] and [registerServersFromConfig]. *)
Definition toolDescriptor (name : string) (tool : NativeTool)
    : ChatCompletionTool :=
  {| tool_type := "function";
     tool_function :=
       {| fd_name := JsString.sanitize (name +:+ "_" +:+ nt_name tool);
          fd_description :=
            "[" +:+ name +:+ "] " +:+ interpolate (nt_description tool);
          fd_parameters := nt_inputSchema tool |} |}.

(** [new MCPOrchestrator(llm, systemPrompt)] *)
Definition MCPOrchestrator_new (l : LLM) (prompt : string) : MCPOrchestrator :=
  {| llm := l; systemPrompt := prompt; servers := ∅; servers_order := [];
     allFunctions := [] |}.

(** The name a descriptor is advertised under. *)
Definition qualifiedName (f : ChatCompletionTool) : string :=
  fd_name (tool_function f).

(** Server names made of letters, digits and hyphens only: sanitizing
    leaves them as they are and puts no underscore into them. *)
Fixpoint identifier_safe (s : string) : bool :=
  match s with
  | EmptyString => true
  | String c r =>
      JsString.in_class c && negb (Ascii.eqb c JsString.underscore)
      && identifier_safe r
  end.

(** [this.servers.set(name, {...}); this.allFunctions.push(...functions)]:
    setting a key the [Map] already holds replaces the value and leaves the
    key at its place, a new key goes to the end. *)
Definition bind_server (name : string) (client : Client)
    (transport : StdioClientTransport) (functions : list ChatCompletionTool)
    (o : MCPOrchestrator) : MCPOrchestrator :=
  {| llm := llm o;
     systemPrompt := systemPrompt o;
     servers :=
       <[name := {| name := name; client := client;
                    transport := transport; functions := functions |}]>
         (servers o);
     servers_order :=
       match servers o !! name with
       | Some _ => servers_order o
       | None => servers_order o ++ [name]
       end;
     allFunctions := allFunctions o ++ functions |}.

(** [this.servers.values()] *)
Definition servers_values (o : MCPOrchestrator) : list MCPServer :=
  omap (fun key => servers o !! key) (servers_order o).

(** The keys the [Map] yields are the keys it holds, each of them once. *)
Definition servers_order_ok (o : MCPOrchestrator) : Prop :=
  NoDup (servers_order o)
  /\ forall key, key ∈ servers_order o <-> is_Some (servers o !! key).

Section Orchestrator.
Context {P : Platform}.
Local Open Scope js_scope.

(** The transport [registerServer] builds for a script. *)
Definition script_transport (scriptPath : string) : StdioClientTransport :=
  let command :=
    if ends_with ".py" scriptPath
    then (if String.eqb process_platform "win32" then "python" else "python3")
    else process_execPath in
  {| command := command; args := [scriptPath]; env := None |}.

Definition registerServer (name scriptPath : string)
    : M MCPOrchestrator unit :=
  let transport := script_transport scriptPath in
  client <- await (connect ("mcp-" +:+ name) transport);;
  toolsResult <- await (listTools client);;
  let functions := List.map (toolDescriptor name) toolsResult in
  modify (bind_server name client transport functions).

Definition registerServersFromConfig (configPath : string)
    : M MCPOrchestrator unit :=
  config <- await (readConfig configPath);;
  for_of config (fun entry =>
    let name := fst entry in
    let transport := snd entry in
    client <- await (connect ("mcp-" +:+ name) transport);;
    toolsResult <- await (listTools client);;
    let functions := List.map (toolDescriptor name) toolsResult in
    modify (bind_server name client transport functions)).

(** [await this.llm.chat(messages, ...)] *)
Definition llm_chat (o : MCPOrchestrator)
    (tools : option (list ChatCompletionTool))
    (choice : option ToolChoice) : M Run ModelResponse :=
  fun st =>
    let r := @chat (llm o) (trace st) (messages st) tools choice in
    (r, {| messages := messages st;
           trace := trace st ++ [EvChat (messages st) tools choice r] |}).

(** [await server.client.callTool({ name, arguments })] *)
Definition client_callTool (server : MCPServer) (toolName : string)
    (arguments : Json) : M Run ToolResult :=
  fun st =>
    let r := callTool (client server) (trace st) toolName arguments in
    (r, {| messages := messages st;
           trace := trace st ++ [EvCallTool (name server) toolName arguments r] |}).

Definition push (new : list Message) : M Run unit :=
  modify (fun st => {| messages := messages st ++ new; trace := trace st |}).

(** [typeof c === "string" ? c : JSON.stringify(c ?? empty)], [empty] being
    the empty string *)
Definition result_content (toolResult : ToolResult) : string :=
  match tr_content toolResult with
  | Some (JStr s) => s
  | c => JSON.stringify (match c with
                         | None | Some JNull => JStr EmptyString
                         | Some v => v
                         end)
  end.

Definition has_name (n : string) (f : ChatCompletionTool) : bool :=
  String.eqb (fd_name (tool_function f)) n.

(** The body of [for (const toolCall of response.tool_calls)]. *)
Definition dispatch (o : MCPOrchestrator) (toolCall : ToolCall)
    : M Run unit :=
  let called := fc_name (tc_function toolCall) in
  toolMeta <- match List.find (has_name called) (allFunctions o) with
              | Some f => ret f
              | None => throw (UnknownToolError called)
              end;;
  let serverName := JsString.split_head (fd_name (tool_function toolMeta)) in
  server <- match servers o !! serverName with
            | Some s => ret s
            | None => throw (UnknownServerError serverName)
            end;;
  let toolName :=
    JsString.replace (serverName +:+ "_") EmptyString
      (fd_name (tool_function toolMeta)) in
  args <- match JSON_parse (fc_arguments (tc_function toolCall)) with
          | Some v => ret v
          | None => throw SyntaxError
          end;;
  toolResult <- client_callTool server toolName args;;
  let content := result_content toolResult in
  push [ {| role := assistant; content := None;
            tool_calls := Some [toolCall]; tool_call_id := None |};
         {| role := tool; content := Some content;
            tool_calls := None; tool_call_id := Some (tc_id toolCall) |} ].

(** [result.choices[0].message], whose [tool_calls] is then read. *)
Definition first_message (result : ModelResponse) : M Run ResponseMessage :=
  match choices result with
  | {| message := Some m |} :: _ => ret m
  | _ => throw TypeError
  end.

(** [final.choices[0].message?.content], nullish-coalesced with the empty
    string *)
Definition final_content (final : ModelResponse) : M Run string :=
  match choices final with
  | c :: _ => ret (nullish (message c ≫= rm_content) EmptyString)
  | [] => throw TypeError
  end.

Definition seed (o : MCPOrchestrator) (query : string) : list Message :=
  [ {| role := system; content := Some (systemPrompt o);
       tool_calls := None; tool_call_id := None |};
    {| role := user; content := Some query;
       tool_calls := None; tool_call_id := None |} ].

(** A registration request: [registerServer(name, scriptPath)] or
    [registerServersFromConfig(orchestrator, configPath)]. *)
Inductive Registration : Type :=
| ViaScript (name scriptPath : string)
| ViaConfig (configPath : string).

Definition register (r : Registration) : M MCPOrchestrator unit :=
  match r with
  | ViaScript name scriptPath => registerServer name scriptPath
  | ViaConfig configPath => registerServersFromConfig configPath
  end.

(** The server names a registration request is about. *)
Definition names_of (r : Registration) : list string :=
  match r with
  | ViaScript name _ => [name]
  | ViaConfig configPath =>
      match readConfig configPath with
      | inr config => List.map fst config
      | inl _ => []
      end
  end.

Definition processQuery (o : MCPOrchestrator) (query : string)
    : M Run string :=
  modify (fun st => {| messages := seed o query; trace := trace st |});;;
  result <- llm_chat o (Some (allFunctions o)) (Some auto);;
  response <- first_message result;;
  match rm_tool_calls response with
  | None | Some [] => ret (nullish (rm_content response) EmptyString)
  | Some calls =>
      for_of calls (dispatch o);;;
      final <- llm_chat o None None;;
      final_content final
  end.

End Orchestrator.

(** ** Vocabulary of the properties *)

Section Vocabulary.
Context {P : Platform}.
Variable o : MCPOrchestrator.

(** [Dispatched h calls evs msgs]: starting with the events [h] behind it,
    the loop serves [calls] one after the other without a failure,
    performing the backend calls [evs] and pushing the messages [msgs]. *)
Inductive Dispatched : list Event -> list ToolCall -> list Event ->
                       list Message -> Prop :=
| Dispatched_nil h : Dispatched h [] [] []
| Dispatched_cons h toolCall toolMeta server arguments toolResult
                  calls evs msgs :
    let qualified := fd_name (tool_function toolMeta) in
    let serverName := JsString.split_head qualified in
    let toolName := JsString.replace (serverName +:+ "_") EmptyString qualified in
    let ev := EvCallTool (name server) toolName arguments (inr toolResult) in
    List.find (has_name (fc_name (tc_function toolCall))) (allFunctions o)
      = Some toolMeta ->
    servers o !! serverName = Some server ->
    JSON_parse (fc_arguments (tc_function toolCall)) = Some arguments ->
    callTool (client server) h toolName arguments = inr toolResult ->
    Dispatched (h ++ [ev]) calls evs msgs ->
    Dispatched h (toolCall :: calls) (ev :: evs)
      ({| role := assistant; content := None;
          tool_calls := Some [toolCall]; tool_call_id := None |}
       :: {| role := tool; content := Some (result_content toolResult);
             tool_calls := None; tool_call_id := Some (tc_id toolCall) |}
       :: msgs).

(** The first model call of a query and the state it leaves. *)
Definition first_chat (query : string) (r : Error + ModelResponse) : Event :=
  EvChat (seed o query) (Some (allFunctions o)) (Some auto) r.

Definition after_first_chat (query : string) (st : Run)
    (r : Error + ModelResponse) : Run :=
  {| messages := seed o query; trace := trace st ++ [first_chat query r] |}.

End Vocabulary.

(** The tool calls [processQuery] reads off a model response. *)
Definition requested (result : ModelResponse) : list ToolCall :=
  match choices result with
  | {| message := Some m |} :: _ => default [] (rm_tool_calls m)
  | _ => []
  end.

(** What is returned for a response that is taken as the answer:
    [choices[0].message?.content], or the empty string when that is absent *)
Definition answer_of (final : ModelResponse) : Error + string :=
  match choices final with
  | c :: _ => inr (nullish (message c ≫= rm_content) EmptyString)
  | [] => inl TypeError
  end.

(** What is returned when the first response carries no tool call:
    [response.content], or the empty string when that is absent, after
    reading [choices[0].message]. *)
Definition first_answer_of (result : ModelResponse) : Error + string :=
  match choices result with
  | {| message := Some m |} :: _ => inr (nullish (rm_content m) EmptyString)
  | _ => inl TypeError
  end.

Section RegistryVocabulary.
Context {P : Platform}.

(** The registry invariant behind unique names: no advertised name occurs
    twice, and the part of each advertised name before its first
    underscore is the name of a registered server. *)
Definition registry_ok (o : MCPOrchestrator) : Prop :=
  NoDup (List.map qualifiedName (allFunctions o))
  /\ forall f, f ∈ allFunctions o ->
               is_Some (servers o !! JsString.split_head (qualifiedName f)).

Definition distinct_tools (tools : list NativeTool) : Prop :=
  NoDup (List.map (fun t => JsString.sanitize (nt_name t)) tools).

(** The statements shared by [registerServer] and the loop body of
    [registerServersFromConfig]. *)
Definition register_entry (n : string) (t : StdioClientTransport)
    : M MCPOrchestrator unit :=
  bind (await (connect ("mcp-" +:+ n) t)) (fun client =>
  bind (await (listTools client)) (fun toolsResult =>
  modify (bind_server n client t (List.map (toolDescriptor n) toolsResult)))).

Definition fresh_names (o : MCPOrchestrator) (names : list string) : Prop :=
  forall n, n ∈ names -> servers o !! n = None /\ identifier_safe n = true.

Definition keys_from (o o' : MCPOrchestrator) (names : list string) : Prop :=
  forall n, is_Some (servers o' !! n) -> is_Some (servers o !! n) \/ n ∈ names.

End RegistryVocabulary.

(** ** A concrete runtime, used to run the model on examples *)

Module Sample.

Definition is_digit (c : ascii) : bool :=
  let n := nat_of_ascii c in ((48 <=? n) && (n <=? 57))%nat.

Fixpoint read_digits (s : string) (acc : Z) : Z * string :=
  match s with
  | String c r =>
      if is_digit c
      then read_digits r (10 * acc + Z.of_nat (nat_of_ascii c - 48))
      else (acc, s)
  | EmptyString => (acc, s)
  end.

(** The text up to the next double quote, and what follows that quote. *)
Fixpoint read_string (s : string) : option (string * string) :=
  match s with
  | EmptyString => None
  | String c r =>
      if (nat_of_ascii c =? 34)%nat then Some (EmptyString, r)
      else match read_string r with
           | Some (body, rest) => Some (String c body, rest)
           | None => None
           end
  end.

Definition head_is (n : nat) (s : string) : bool :=
  match s with
  | String c _ => (nat_of_ascii c =? n)%nat
  | EmptyString => false
  end.

(** [JSON.parse] on compact JSON text: no white space, no escapes inside
    strings, integer numbers. *)
Fixpoint parse_value (fuel : nat) (s : string) : option (Json * string) :=
  match fuel with
  | O => None
  | S fuel =>
      if JsString.starts_with "null" s then Some (JNull, JsString.drop 4 s)
      else if JsString.starts_with "true" s
      then Some (JBool true, JsString.drop 4 s)
      else if JsString.starts_with "false" s
      then Some (JBool false, JsString.drop 5 s)
      else match s with
           | EmptyString => None
           | String c r =>
               let n := nat_of_ascii c in
               if (n =? 34)%nat then
                 match read_string r with
                 | Some (body, rest) => Some (JStr body, rest)
                 | None => None
                 end
               else if (n =? 45)%nat then
                 if head_is 48 r then Some (JNum 0, JsString.drop 1 r)
                 else if match r with
                         | String d _ => is_digit d
                         | EmptyString => false
                         end
                 then let '(v, rest) := read_digits r 0 in Some (JNum (- v), rest)
                 else None
               else if is_digit c then
                 if (n =? 48)%nat then Some (JNum 0, r)
                 else let '(v, rest) := read_digits s 0 in Some (JNum v, rest)
               else if (n =? 91)%nat then
                 if head_is 93 r then Some (JArr [], JsString.drop 1 r)
                 else match parse_items fuel r with
                      | Some (items, rest) => Some (JArr items, rest)
                      | None => None
                      end
               else if (n =? 123)%nat then
                 if head_is 125 r then Some (JObj [], JsString.drop 1 r)
                 else match parse_members fuel r with
                      | Some (members, rest) => Some (JObj members, rest)
                      | None => None
                      end
               else None
           end
  end
with parse_items (fuel : nat) (s : string) : option (list Json * string) :=
  match fuel with
  | O => None
  | S fuel =>
      match parse_value fuel s with
      | Some (v, rest) =>
          if head_is 93 rest then Some ([v], JsString.drop 1 rest)
          else if head_is 44 rest then
            match parse_items fuel (JsString.drop 1 rest) with
            | Some (vs, rest') => Some (v :: vs, rest')
            | None => None
            end
          else None
      | None => None
      end
  end
with parse_members (fuel : nat) (s : string)
    : option (list (string * Json) * string) :=
  match fuel with
  | O => None
  | S fuel =>
      if head_is 34 s then
        match read_string (JsString.drop 1 s) with
        | Some (key, rest) =>
            if head_is 58 rest then
              match parse_value fuel (JsString.drop 1 rest) with
              | Some (v, rest') =>
                  if head_is 125 rest' then Some ([(key, v)], JsString.drop 1 rest')
                  else if head_is 44 rest' then
                    match parse_members fuel (JsString.drop 1 rest') with
                    | Some (ms, rest'') => Some ((key, v) :: ms, rest'')
                    | None => None
                    end
                  else None
              | None => None
              end
            else None
        | None => None
        end
      else None
  end.

Definition parse (s : string) : option Json :=
  match parse_value (S (String.length s)) s with
  | Some (v, EmptyString) => Some v
  | _ => None
  end.

Definition q (s : string) : string := JSON.dquote +:+ s +:+ JSON.dquote.

Definition schema : Json := JObj [("type", JStr "object")].

Definition native (name description : string) : NativeTool :=
  {| nt_name := name;
     nt_description := Some description;
     nt_inputSchema := schema |}.

Definition member (key : string) (v : Json) : Z :=
  match v with
  | JObj ms =>
      match List.find (fun kv => String.eqb (fst kv) key) ms with
      | Some (_, JNum n) => n
      | _ => 0
      end
  | _ => 0
  end.

(** A backend given by its tools and what each of them answers; a name it
    never listed is rejected. *)
Definition backend (info : string)
    (tools : list (NativeTool * (Json -> option Json))) : Client :=
  {| client_name := info;
     listTools := inr (List.map fst tools);
     callTool := fun _ name arguments =>
       match List.find (fun th => String.eqb (nt_name (fst th)) name) tools with
       | Some th => inr {| tr_content := snd th arguments |}
       | None => inl (Rejected ("Tool not found: " +:+ name))
       end |}.

Definition Handlers : Type := list (NativeTool * (Json -> option Json)).

Definition math_tools : Handlers :=
  [ (native "add" "Adds a and b",
     fun v => Some (JNum (member "a" v + member "b" v)));
    (native "read" "Reads a constant", fun _ => Some (JNum 42)) ].

Definition files_tools : Handlers :=
  [ (native "read" "Reads a file", fun _ => Some (JStr "lorem ipsum")) ].

Definition silent_tools : Handlers :=
  [ (native "ping" "Answers nothing", fun _ => None) ].

Definition weather_tools : Handlers :=
  [ (native "get.weather" "Current weather",
     fun _ => Some (JArr [JObj [("type", JStr "text");
                                ("text", JStr "sunny")]])) ].

Definition catalogue : list (string * Handlers) :=
  [ ("math-server", math_tools);
    ("files-server", files_tools);
    ("silent-server", silent_tools);
    ("weather-server", weather_tools);
    ("a-server", [ (native "b_c" "Tool b_c of a", fun _ => Some JNull) ]);
    ("ab-server", [ (native "c" "Tool c of a_b", fun _ => Some JNull) ]) ].

(** Scripts are started through the interpreter; the backend is then
    chosen by the script. *)
Definition launch (info : string) (t : StdioClientTransport)
    : Error + Client :=
  let cmd :=
    if String.eqb (command t) "python3"
    then default (command t) (head (args t))
    else command t in
  let cmd := if String.eqb cmd "math.py" then "math-server" else cmd in
  match List.find (fun entry => String.eqb (fst entry) cmd) catalogue with
  | Some entry => inr (backend info (snd entry))
  | None => inl (Rejected ("spawn " +:+ cmd +:+ " ENOENT"))
  end.

Definition stdio (cmd : string) : StdioClientTransport :=
  {| command := cmd; args := []; env := None |}.

(** The binding the registry holds for the backend [tools] started by
    [cmd] under the name [n]. *)
Definition binding (n cmd : string) (tools : Handlers) : MCPServer :=
  {| name := n;
     client := backend ("mcp-" +:+ n) tools;
     transport := stdio cmd;
     functions := List.map (toolDescriptor n) (List.map fst tools) |}.

Definition config_file (path : string)
    : Error + list (string * StdioClientTransport) :=
  if String.eqb path "./mcp.servers.json" then
    inr [("files", stdio "files-server"); ("math", stdio "math-server")]
  else if String.eqb path "./collide.json" then
    inr [("a", stdio "a-server"); ("a_b", stdio "ab-server")]
  else if String.eqb path "./underscore.json" then
    inr [("my", stdio "math-server"); ("my_server", stdio "files-server")]
  else if String.eqb path "./lonely.json" then
    inr [("my_server", stdio "files-server")]
  else if String.eqb path "./weather.json" then
    inr [("w", stdio "weather-server")]
  else if String.eqb path "./math.json" then
    inr [("math", stdio "math-server")]
  else if String.eqb path "./silent.json" then
    inr [("quiet", stdio "silent-server")]
  else inl (Rejected ("ENOENT: " +:+ path)).

#[export] Instance platform : Platform :=
  {| JSON_parse := parse;
     process_platform := "linux";
     process_execPath := "/usr/bin/node";
     connect := launch;
     readConfig := config_file |}.

Definition call (id name arguments : string) : ToolCall :=
  {| tc_id := id;
     tc_function := {| fc_name := name; fc_arguments := arguments |} |}.

Definition reply (text : option string) (calls : option (list ToolCall))
    : Error + ModelResponse :=
  inr {| choices :=
           [ {| message := Some {| rm_content := text;
                                   rm_tool_calls := calls |} |} ] |}.

(** A provider that answers the [n]-th model call of a run by the [n]-th
    entry of [script], and is rejected once the script is used up. *)
Definition scripted (script : list (Error + ModelResponse)) : Gpt.Sdk :=
  fun h _ =>
    match script !! length (List.filter is_chat h) with
    | Some r => r
    | None => inl (Rejected "429 rate limit")
    end.

Definition fresh (l : LLM) : MCPOrchestrator :=
  MCPOrchestrator_new l "You are a helpful agent.".

(** The orchestrator [main] builds: the servers of [path] registered on a
    fresh instance. *)
Definition started (l : LLM) (path : string) : MCPOrchestrator :=
  snd (registerServersFromConfig path (fresh l)).

Definition idle : Run := {| messages := []; trace := [] |}.

(** The model's successful replies in a trace. *)
Definition chat_replies (tr : list Event) : list ModelResponse :=
  omap (fun e => match e with
                 | EvChat _ _ _ (inr r) => Some r
                 | _ => None
                 end) tr.

Definition add22 : ToolCall :=
  call "call_1" "math_add" ("{" +:+ q "a" +:+ ":2," +:+ q "b" +:+ ":2}").
Definition add45 : ToolCall :=
  call "call_2" "math_add" ("{" +:+ q "a" +:+ ":4," +:+ q "b" +:+ ":5}").

(** A model that asks for a tool in each of its first two responses. *)
Definition eager : LLM :=
  GPT (scripted [reply None (Some [add22]); reply (Some "more") (Some [add45])]).

(** The scenario of the specification: one tool call, then the answer. *)
Definition asks_once : LLM :=
  GPT (scripted [reply None (Some [add22]);
                 reply (Some "The answer is 4") None]).

(** A native Anthropic response holding a text block and a tool-use
    block. *)
Definition tool_use_message : Anthropic.NativeMessage :=
  {| Anthropic.content :=
       [ {| Anthropic.type := "text";
            Anthropic.text := Some (JStr "Let me add these.");
            Anthropic.id := None; Anthropic.name := None;
            Anthropic.input := None |};
         {| Anthropic.type := "tool_use";
            Anthropic.text := None;
            Anthropic.id := Some "toolu_01";
            Anthropic.name := Some "math_add";
            Anthropic.input := Some (JObj [("a", JNum 2); ("b", JNum 2)]) |} ] |}.

(** The tool calls a native Anthropic response holds: its blocks of type
    [tool_use]. *)
Definition native_tool_uses (m : Anthropic.NativeMessage)
    : list Anthropic.ContentBlock :=
  List.filter (fun b => String.eqb (Anthropic.type b) "tool_use")
    (Anthropic.content m).

End Sample.

(** ** Further vocabulary *)

(** Every code unit of [s] is in the class the sanitizing regexp keeps. *)
Fixpoint all_in_class (s : string) : bool :=
  match s with
  | EmptyString => true
  | String c r => JsString.in_class c && all_in_class r
  end.

Section Listing.
Context {P : Platform}.

(** Whether the backend of a configuration entry connects and lists its
    tools, and the descriptors it then contributes. *)
Definition starts (entry : string * StdioClientTransport) : bool :=
  match connect ("mcp-" +:+ fst entry) (snd entry) with
  | inr c => match listTools c with inr _ => true | inl _ => false end
  | inl _ => false
  end.

Definition listed (entry : string * StdioClientTransport)
    : list ChatCompletionTool :=
  match connect ("mcp-" +:+ fst entry) (snd entry) with
  | inr c =>
      match listTools c with
      | inr tools => List.map (toolDescriptor (fst entry)) tools
      | inl _ => []
      end
  | inl _ => []
  end.

(** The error a configuration entry fails with, in [connect] or in
    [listTools]. *)
Definition startup_error (entry : string * StdioClientTransport)
    : option Error :=
  match connect ("mcp-" +:+ fst entry) (snd entry) with
  | inl e => Some e
  | inr c => match listTools c with inl e => Some e | inr _ => None end
  end.

(** Every binding of the server map is stored under its own name and holds
    descriptors of the flattened list only. *)
Definition bindings_consistent (o : MCPOrchestrator) : Prop :=
  forall k srv,
    servers o !! k = Some srv ->
    name srv = k /\ forall f, f ∈ functions srv -> f ∈ allFunctions o.

End Listing.

(** The text [Claude.chat] returns for a native response: the text of its
    first text block, the empty string when it has none. *)
Definition first_text (res : Anthropic.NativeMessage) : string :=
  nullish (List.find Anthropic.isTextBlock (Anthropic.content res)
             ≫= Anthropic.text_of)
    EmptyString.

(** ** The OpenAI client, as both versions of the orchestrator call it *)

Module OpenAIApi.

(** The body of [chat.completions.create]; a key the caller leaves out is
    [None]. *)
Record Request : Type :=
  { model : string;
    messages : list Message;
    tools : option (list ChatCompletionTool);
    tool_choice : option ToolChoice }.

Definition Sdk : Type := list Event -> Request -> Error + ModelResponse.

(** The client as [GPT.chat] calls it, with all four keys. *)
Definition as_gpt (openai : Sdk) : Gpt.Sdk :=
  fun h req =>
    openai h {| model := Gpt.model req;
                messages := Gpt.messages req;
                tools := Some (Gpt.tools req);
                tool_choice := Some (Gpt.tool_choice req) |}.

(** An [LLM] that hands its arguments to the client as they are. *)
Definition direct (openai : Sdk) : LLM :=
  {| chat := fun h msgs tls choice =>
       openai h {| model := "gpt-4-1106-preview";
                   messages := msgs;
                   tools := tls;
                   tool_choice := choice |} |}.

End OpenAIApi.

(** ** The older orchestrator ([mcp-orchestrator-client.ts] before the
       adapters), which calls the OpenAI client itself *)

Module Legacy.

Definition SYSTEM_PROMPT : string :=
  "You are Bixby, a helpful and knowledgeable AI agent that coordinates multiple MCP servers. If someone asks who you are, say: 'I am Bixby agent.'".

Section Orchestrator.
Context {P : Platform}.
Variable openai : OpenAIApi.Sdk.
Local Open Scope js_scope.

(** [await this.llm.chat.completions.create({ model, messages, ... })] *)
Definition create (tls : option (list ChatCompletionTool))
    (choice : option ToolChoice) : M Run ModelResponse :=
  fun st =>
    let r := openai (trace st)
               {| OpenAIApi.model := "gpt-4-1106-preview";
                  OpenAIApi.messages := messages st;
                  OpenAIApi.tools := tls;
                  OpenAIApi.tool_choice := choice |} in
    (r, {| messages := messages st;
           trace := trace st ++ [EvChat (messages st) tls choice r] |}).

Definition seed (query : string) : list Message :=
  [ {| role := system; content := Some SYSTEM_PROMPT;
       tool_calls := None; tool_call_id := None |};
    {| role := user; content := Some query;
       tool_calls := None; tool_call_id := None |} ].

(** [processQuery] of the older class.  Of the orchestrator record it uses
    the server map and the flattened list; its [llm] is the client
    [openai]. *)
Definition processQuery (o : MCPOrchestrator) (query : string)
    : M Run string :=
  modify (fun st => {| messages := seed query; trace := trace st |});;;
  result <- create (Some (allFunctions o)) (Some auto);;
  response <- first_message result;;
  match rm_tool_calls response with
  | None | Some [] => ret (nullish (rm_content response) EmptyString)
  | Some calls =>
      for_of calls (dispatch o);;;
      final <- create None None;;
      final_content final
  end.

End Orchestrator.

End Legacy.

(** ** Start-up, the prompt loop and shutdown *)

Module JsText.

(** White space and line terminators among the code units below 256. *)
Definition is_space (c : ascii) : bool :=
  let n := nat_of_ascii c in
  (((9 <=? n) && (n <=? 13)) || (n =? 32) || (n =? 160))%nat.

Fixpoint trimStart (s : string) : string :=
  match s with
  | EmptyString => EmptyString
  | String c r => if is_space c then trimStart r else s
  end.

Fixpoint trimEnd (s : string) : string :=
  match s with
  | EmptyString => EmptyString
  | String c r =>
      match trimEnd r with
      | EmptyString => if is_space c then EmptyString else String c EmptyString
      | kept => String c kept
      end
  end.

(** [s.trim()] *)
Definition trim (s : string) : string := trimEnd (trimStart s).

(** The lower-case form of a code unit below 256: the letters A to Z and
    the capital letters of Latin-1. *)
Definition lower (c : ascii) : ascii :=
  let n := nat_of_ascii c in
  if (((65 <=? n) && (n <=? 90))
      || ((192 <=? n) && (n <=? 222) && negb (n =? 215)))%nat
  then ascii_of_nat (n + 32)
  else c.

(** [s.toLowerCase()] *)
Fixpoint toLowerCase (s : string) : string :=
  match s with
  | EmptyString => EmptyString
  | String c r => String (lower c) (toLowerCase r)
  end.

(** [String(v)], as a template literal converts a JSON value. *)
Fixpoint to_string (v : Json) : string :=
  match v with
  | JNull => "null"
  | JBool true => "true"
  | JBool false => "false"
  | JNum n => NilZero.string_of_int (Z.to_int n)
  | JStr s => s
  | JArr items =>
      JsString.join ","
        (List.map (fun x => match x with
                            | JNull => EmptyString
                            | _ => to_string x
                            end) items)
  | JObj _ => "[object Object]"
  end.

(** [v.key] for a parsed JSON value that is not [null] and a key no
    prototype defines: the last member of that name of an object, and
    [undefined] for anything else. *)
Definition property (key : string) (v : Json) : option Json :=
  match v with
  | JObj members =>
      snd <$> List.find (fun kv => String.eqb (fst kv) key) (rev members)
  | _ => None
  end.

(** [!!s] for an optional string: neither [undefined] nor empty. *)
Definition truthy (s : option string) : bool :=
  match s with
  | Some (String _ _) => true
  | _ => false
  end.

End JsText.

(** What the process offers besides the [Platform]: files, the environment,
    the provider clients and [client.close()]. *)
Class Host : Type :=
  { fs_readFile : string -> Error + string;
    process_env : string -> option string;
    new_Anthropic : string -> Anthropic.Sdk;
    new_OpenAI : string -> OpenAIApi.Sdk;
    client_close : Client -> Error + unit }.

Record LoadedConfig : Type :=
  { lc_llm : LLM; lc_systemPrompt : string; lc_serverConfig : string }.

(** What a run of the program leaves behind: the events, the answers
    written by [console.log], the errors written by [console.error], and the
    clients [close] was called on.  The banner, the prompts and the
    registration messages are not recorded. *)
Record Session : Type :=
  { events : list Event;
    printed : list string;
    reported : list Error;
    closed : list Client }.

(** How the program ends: [process.exit(code)], a rejection nobody handles,
    or waiting for a line that is not there. *)
Inductive Ending : Type :=
| Exit (code : Z)
| Unhandled (e : Error)
| AwaitingInput.

(** How the prompt loop ends: by [break], by a thrown error, or waiting for
    a line. *)
Inductive LoopEnd : Type :=
| Quit
| Threw (e : Error)
| Starved.

Definition newline : string := String (ascii_of_nat 10) EmptyString.

Section Program.
Context {P : Platform} {H : Host}.

(** [v === text] for a value read off the configuration. *)
Definition is_text (v : option Json) (text : string) : bool :=
  match v with
  | Some (JStr s) => String.eqb s text
  | _ => false
  end.

(** A string that is a string and has more than white space in it:
    [typeof v === "string" && v.trim()]. *)
Definition filled (v : option Json) : option string :=
  match v with
  | Some (JStr s) =>
      match JsText.trim s with
      | EmptyString => None
      | _ => Some s
      end
  | _ => None
  end.

(** The statements of [loadConfig] after the destructuring of the parsed
    file. *)
Definition checked (parsed : Json) : Error + LoadedConfig :=
  let model := JsText.property "llm" parsed in
  let systemPrompt := JsText.property "systemPrompt" parsed in
  let serverConfig := JsText.property "serverConfig" parsed in
  let chosen : Error + LLM :=
    if is_text model "claude" then
      match process_env "CLAUDE_API_KEY" with
      | Some (String c key) => inr (Claude (new_Anthropic (String c key)))
      | _ => inl (JsError "CLAUDE_API_KEY is not set")
      end
    else if is_text model "gpt" then
      match process_env "OPENAI_API_KEY" with
      | Some (String c key) =>
          inr (GPT (OpenAIApi.as_gpt (new_OpenAI (String c key))))
      | _ => inl (JsError "OPENAI_API_KEY is not set")
      end
    else
      inl (JsError
             ("Unsupported LLM type: '"
              +:+ match model with
                  | Some v => JsText.to_string v
                  | None => "undefined"
                  end
              +:+ "'. Use 'gpt' or 'claude' in mcp.llm.json")) in
  match chosen with
  | inl e => inl e
  | inr l =>
      match filled systemPrompt with
      | None => inl (JsError "Missing or invalid 'systemPrompt' in mcp.llm.json")
      | Some prompt =>
          match filled serverConfig with
          | None =>
              inl (JsError "Missing or invalid 'serverConfig' in mcp.llm.json")
          | Some path =>
              inr {| lc_llm := l;
                     lc_systemPrompt := prompt;
                     lc_serverConfig := path |}
          end
      end
  end.

(** [loadConfig]: destructuring [null] throws a [TypeError]; any other
    parsed value is destructured, a key it lacks being [undefined]. *)
Definition loadConfig : Error + LoadedConfig :=
  match fs_readFile "./mcp.llm.json" with
  | inl e => inl e
  | inr content =>
      match JSON_parse content with
      | None => inl SyntaxError
      | Some JNull => inl TypeError
      | Some parsed => checked parsed
      end
  end.

(** [cleanup]: the state is the list of clients [close] was called on. *)
Definition cleanup (o : MCPOrchestrator) : M (list Client) unit :=
  for_of (servers_values o)
    (fun server done =>
       (client_close (client server), done ++ [client server])).

(** The body of [while (true)] in [main], run on the lines the terminal
    still has to give. *)
Fixpoint prompt_loop (o : MCPOrchestrator) (inputs : list string)
    (s : Session) : LoopEnd * Session :=
  match inputs with
  | [] => (Starved, s)
  | message :: rest =>
      if String.eqb (JsText.toLowerCase message) "quit" then (Quit, s)
      else
        match processQuery o message {| messages := []; trace := events s |} with
        | (inl e, st) =>
            (Threw e, {| events := trace st; printed := printed s;
                         reported := reported s; closed := closed s |})
        | (inr response, st) =>
            prompt_loop o rest
              {| events := trace st;
                 printed := printed s ++ [newline +:+ response];
                 reported := reported s;
                 closed := closed s |}
        end
  end.

(** [finally { rl.close(); await orchestrator.cleanup(); process.exit(0) }] *)
Definition finally (o : MCPOrchestrator) (s : Session) : Ending * Session :=
  match cleanup o (closed s) with
  | (inl e, done) =>
      (Unhandled e, {| events := events s; printed := printed s;
                       reported := reported s; closed := done |})
  | (inr _, done) =>
      (Exit 0, {| events := events s; printed := printed s;
                  reported := reported s; closed := done |})
  end.

Definition main (inputs : list string) (s : Session) : Ending * Session :=
  match loadConfig with
  | inl e => (Unhandled e, s)
  | inr cfg =>
      let orchestrator :=
        MCPOrchestrator_new (lc_llm cfg) (lc_systemPrompt cfg) in
      match registerServersFromConfig (lc_serverConfig cfg) orchestrator with
      | (inl e, _) => (Unhandled e, s)
      | (inr _, o) =>
          match prompt_loop o inputs s with
          | (Starved, s') => (AwaitingInput, s')
          | (_, s') => finally o s'
          end
      end
  end.

(** The module [index.ts] as a whole: the check of [OPENAI_API_KEY] at its
    top, then [main()]. *)
Definition index (inputs : list string) (s : Session) : Ending * Session :=
  if JsText.truthy (process_env "OPENAI_API_KEY") then main inputs s
  else (Unhandled (JsError "OPENAI_API_KEY is not set"), s).

Definition is_quit (message : string) : bool :=
  String.eqb (JsText.toLowerCase message) "quit".

(** The lines the loop reads as queries: those before the first [quit]. *)
Fixpoint before_quit (inputs : list string) : list string :=
  match inputs with
  | [] => []
  | message :: rest =>
      if is_quit message then [] else message :: before_quit rest
  end.

(** The loop of the older [main], which catches what a query throws and
    goes on. *)
Fixpoint legacy_prompt_loop (openai : OpenAIApi.Sdk) (o : MCPOrchestrator)
    (inputs : list string) (s : Session) : LoopEnd * Session :=
  match inputs with
  | [] => (Starved, s)
  | message :: rest =>
      if String.eqb (JsText.toLowerCase message) "quit" then (Quit, s)
      else
        match Legacy.processQuery openai o message
                {| messages := []; trace := events s |} with
        | (inl e, st) =>
            legacy_prompt_loop openai o rest
              {| events := trace st; printed := printed s;
                 reported := reported s ++ [e]; closed := closed s |}
        | (inr response, st) =>
            legacy_prompt_loop openai o rest
              {| events := trace st;
                 printed := printed s ++ [newline +:+ response];
                 reported := reported s;
                 closed := closed s |}
        end
  end.

(** The older module as a whole.  The fields [llm] and [systemPrompt] of
    the orchestrator record play no part in it. *)
Definition legacy_index (inputs : list string) (s : Session)
    : Ending * Session :=
  match process_env "OPENAI_API_KEY" with
  | Some (String c key) =>
      let openai := new_OpenAI (String c key) in
      let orchestrator :=
        MCPOrchestrator_new (OpenAIApi.direct openai) Legacy.SYSTEM_PROMPT in
      match registerServersFromConfig "./mcp.servers.json" orchestrator with
      | (inl e, _) => (Unhandled e, s)
      | (inr _, o) =>
          match legacy_prompt_loop openai o inputs s with
          | (Starved, s') => (AwaitingInput, s')
          | (_, s') => finally o s'
          end
      end
  | _ => (Unhandled (JsError "OPENAI_API_KEY is not set"), s)
  end.

End Program.

(** ** A concrete host, used to run the program on examples *)

Module SampleHost.
Import Sample.

(** The text of [mcp.llm.json] for a provider and a server configuration. *)
Definition llm_json (provider path : string) : string :=
  "{" +:+ q "llm" +:+ ":" +:+ q provider +:+ ","
  +:+ q "systemPrompt" +:+ ":" +:+ q "You are a helpful agent." +:+ ","
  +:+ q "serverConfig" +:+ ":" +:+ q path +:+ "}".

Definition env_of (vars : list (string * string)) (key : string)
    : option string :=
  snd <$> List.find (fun kv => String.eqb (fst kv) key) vars.

(** An OpenAI client that answers the [n]-th model call of a run by the
    [n]-th entry of [script], whatever the request, and is rejected once the
    script is used up. *)
Definition scripted_openai (script : list (Error + ModelResponse))
    : OpenAIApi.Sdk :=
  fun h _ =>
    match script !! length (List.filter is_chat h) with
    | Some r => r
    | None => inl (Rejected "429 rate limit")
    end.

(** A host: the provider and server configuration named in [mcp.llm.json],
    the environment, the script of the OpenAI client, and the name of a
    client whose [close] fails. *)
Definition host (provider path : string) (vars : list (string * string))
    (script : list (Error + ModelResponse)) (stuck : string) : Host :=
  {| fs_readFile := fun file =>
       if String.eqb file "./mcp.llm.json" then inr (llm_json provider path)
       else inl (Rejected ("ENOENT: " +:+ file));
     process_env := env_of vars;
     new_Anthropic := fun _ _ _ => inr tool_use_message;
     new_OpenAI := fun _ => scripted_openai script;
     client_close := fun c =>
       if String.eqb (client_name c) stuck
       then inl (Rejected "close failed")
       else inr tt |}.

(** A platform with one more server configuration, whose second backend
    does not exist. *)
Definition broken_platform : Platform :=
  {| JSON_parse := parse;
     process_platform := "linux";
     process_execPath := "/usr/bin/node";
     connect := launch;
     readConfig := fun path =>
       if String.eqb path "./broken.json" then
         inr [("files", stdio "files-server"); ("ghost", stdio "ghost-server");
              ("math", stdio "math-server")]
       else config_file path |}.

(** A native response whose first block is a tool-use block and whose
    second block has type text but a number as text. *)
Definition mixed_message : Anthropic.NativeMessage :=
  {| Anthropic.content :=
       [ {| Anthropic.type := "tool_use"; Anthropic.text := None;
            Anthropic.id := Some "toolu_01"; Anthropic.name := Some "math_add";
            Anthropic.input := Some (JObj []) |};
         {| Anthropic.type := "text"; Anthropic.text := Some (JNum 7);
            Anthropic.id := None; Anthropic.name := None;
            Anthropic.input := None |};
         {| Anthropic.type := "text"; Anthropic.text := Some (JStr "Hello.");
            Anthropic.id := None; Anthropic.name := None;
            Anthropic.input := None |};
         {| Anthropic.type := "text"; Anthropic.text := Some (JStr "Bye.");
            Anthropic.id := None; Anthropic.name := None;
            Anthropic.input := None |} ] |}.

Definition tool_use_only : Anthropic.NativeMessage :=
  {| Anthropic.content :=
       [ {| Anthropic.type := "tool_use"; Anthropic.text := None;
            Anthropic.id := Some "toolu_01"; Anthropic.name := Some "math_add";
            Anthropic.input := Some (JObj []) |} ] |}.

(** The scripts and configurations of the examples. *)
Definition one_round : list (Error + ModelResponse) :=
  [reply None (Some [add22]); reply (Some "The answer is 4") None].

Definition gpt_on (script : list (Error + ModelResponse)) : LLM :=
  GPT (OpenAIApi.as_gpt (scripted_openai script)).

Definition loaded (l : LLM) (path : string) : LoadedConfig :=
  {| lc_llm := l;
     lc_systemPrompt := "You are a helpful agent.";
     lc_serverConfig := path |}.

Definition add_event : Event :=
  EvCallTool "math" "add" (JObj [("a", JNum 2); ("b", JNum 2)])
    (inr {| tr_content := Some (JNum 4) |}).

Definition add_pair : list Message :=
  [ {| role := assistant; content := None;
       tool_calls := Some [add22]; tool_call_id := None |};
    {| role := tool; content := Some "4";
       tool_calls := None; tool_call_id := Some "call_1" |} ].

Definition blank : Session :=
  {| events := []; printed := []; reported := []; closed := [] |}.

Definition keys : list (string * string) :=
  [("OPENAI_API_KEY", "sk-openai"); ("CLAUDE_API_KEY", "sk-claude")].

End SampleHost.

(** * Properties *)

Section Dispatch.
Context {P : Platform}.
Variable o : MCPOrchestrator.

Lemma Dispatched_lengths h calls evs msgs :
  Dispatched o h calls evs msgs ->
  length evs = length calls /\ length msgs = 2 * length calls
  /\ Forall (fun e => is_call_tool e = true) evs.
Proof.
  induction 1 as [|h tc meta srv a res calls evs msgs q sn tn ev ? ? ? ? ? IH].
  - repeat split; constructor.
  - destruct IH as (IH1 & IH2 & IH3). cbn [length].
    repeat split; [lia | lia | constructor; [reflexivity | assumption]].
Qed.

(** One pass through the loop body: either the call is served, with one
    backend call and two pushed messages, or it fails and pushes nothing. *)
Lemma dispatch_step toolCall st :
  (exists toolMeta server arguments toolResult,
      let qualified := fd_name (tool_function toolMeta) in
      let serverName := JsString.split_head qualified in
      let toolName :=
        JsString.replace (serverName +:+ "_") EmptyString qualified in
      let ev := EvCallTool (name server) toolName arguments (inr toolResult) in
      List.find (has_name (fc_name (tc_function toolCall))) (allFunctions o)
        = Some toolMeta
      /\ servers o !! serverName = Some server
      /\ JSON_parse (fc_arguments (tc_function toolCall)) = Some arguments
      /\ callTool (client server) (trace st) toolName arguments
         = inr toolResult
      /\ dispatch o toolCall st
         = (inr tt,
            {| messages :=
                 messages st ++
                   [ {| role := assistant; content := None;
                        tool_calls := Some [toolCall]; tool_call_id := None |};
                     {| role := tool;
                        content := Some (result_content toolResult);
                        tool_calls := None;
                        tool_call_id := Some (tc_id toolCall) |} ];
               trace := trace st ++ [ev] |}))
  \/ (exists e st',
        dispatch o toolCall st = (inl e, st')
        /\ messages st' = messages st
        /\ (trace st' = trace st
            \/ exists server toolName arguments,
                 trace st' = trace st
                   ++ [EvCallTool server toolName arguments (inl e)])).
Proof.
  unfold dispatch, bind.
  destruct (List.find _ (allFunctions o)) as [meta|] eqn:Hfind; cbn;
    [|right; eauto 10].
  destruct (servers o !! _) as [srv|] eqn:Hsrv; cbn; [|right; eauto 10].
  destruct (JSON_parse _) as [a|] eqn:Hparse; cbn; [|right; eauto 10].
  unfold client_callTool.
  destruct (callTool (client srv) (trace st) _ a) as [e|res] eqn:Hcall; cbn.
  - right. eexists _, _. split; [reflexivity|]. cbn. split; [reflexivity|].
    right. eauto.
  - left. exists meta, srv, a, res. cbn. auto.
Qed.

Lemma for_of_app {S A} (xs ys : list A) (body : A -> M S unit) st :
  for_of (xs ++ ys) body st
  = match for_of xs body st with
    | (inl e, st') => (inl e, st')
    | (inr _, st') => for_of ys body st'
    end.
Proof.
  revert st. induction xs as [|x xs IH]; intros st; cbn; [reflexivity|].
  unfold bind. destruct (body x st) as [[e|[]] st1]; [reflexivity|apply IH].
Qed.

(** The whole loop: a prefix of the calls is served in order; the loop
    ends well when that prefix is all of them, and otherwise stops at the
    first call that fails, which leaves no message behind. *)
Lemma for_of_dispatch calls st :
  exists served evs msgs extra,
    let out := for_of calls (dispatch o) st in
    Dispatched o (trace st) served evs msgs
    /\ messages (snd out) = messages st ++ msgs
    /\ trace (snd out) = trace st ++ evs ++ extra
    /\ ((fst out = inr tt /\ served = calls /\ extra = [])
        \/ (exists e failed rest,
              fst out = inl e /\ calls = served ++ failed :: rest
              /\ (extra = []
                  \/ exists server toolName arguments,
                       extra = [EvCallTool server toolName arguments (inl e)]))).
Proof.
  revert st. induction calls as [|tc calls IH]; intros st.
  - exists [], [], [], []. cbn. rewrite !app_nil_r.
    repeat split; [constructor | left; auto].
  - cbn [for_of]. unfold bind.
    destruct (dispatch_step tc st)
      as [(meta & srv & a & res & Hf & Hs & Hp & Hc & Hd)
         |(e & st1 & Hd & Hm & Ht)].
    + rewrite Hd.
      match goal with
      | |- context [for_of calls _ ?s] => destruct (IH s)
          as (served & evs & msgs & extra & HD & Hmsg & Htr & Hend)
      end.
      cbn [messages trace] in HD, Hmsg, Htr.
      eexists (tc :: served), (_ :: evs), (_ :: _ :: msgs), extra.
      cbn zeta. split; [|split; [|split]].
      * eapply Dispatched_cons; eauto.
      * rewrite Hmsg, <- app_assoc. reflexivity.
      * rewrite Htr, <- app_assoc. reflexivity.
      * destruct Hend as [(Hr & -> & ->)|(e & failed & rest & Hr & -> & Hx)].
        -- left. auto.
        -- right. exists e, failed, rest. auto.
    + rewrite Hd. exists [], [], [], (drop (length (trace st)) (trace st1)).
      cbn. rewrite app_nil_r.
      split; [constructor|]. split; [assumption|].
      destruct Ht as [Ht|(sv & tn & ar & Ht)]; rewrite Ht.
      * rewrite drop_all, app_nil_r. split; [reflexivity|].
        right. exists e, tc, calls. auto.
      * rewrite drop_app_length. split; [reflexivity|].
        right. exists e, tc, calls. split; [reflexivity|]. split; [reflexivity|].
        right. eauto.
Qed.

(** The loop, exactly: the calls before the first one that fails are
    served, and the loop ends in the state that call leaves; when no call
    fails, all of them are served. *)
Lemma for_of_dispatch_run calls : forall st,
  exists served evs msgs,
    let st2 := {| messages := messages st ++ msgs;
                  trace := trace st ++ evs |} in
    Dispatched o (trace st) served evs msgs
    /\ ((served = calls /\ for_of calls (dispatch o) st = (inr tt, st2))
        \/ (exists failed rest e st3,
              calls = served ++ failed :: rest
              /\ dispatch o failed st2 = (inl e, st3)
              /\ for_of calls (dispatch o) st = (inl e, st3))).
Proof.
  induction calls as [|tc calls IH]; intros st.
  - exists [], [], []. cbv zeta. split; [constructor|]. left.
    split; [reflexivity|]. cbn. rewrite !app_nil_r. destruct st; reflexivity.
  - destruct (dispatch_step tc st)
      as [(meta & srv & a & res & Hf & Hs & Hp & Hc & Hd)
         |(e & st1 & Hd & _)].
    + match type of Hd with
      | _ = (_, ?s) => destruct (IH s) as (served & evs & msgs & HD & Hend)
      end.
      cbn [messages trace] in HD, Hend.
      eexists (tc :: served), (_ :: evs), (_ :: _ :: msgs). cbv zeta.
      split; [eapply Dispatched_cons; eauto|].
      cbn [for_of]. unfold bind. rewrite Hd.
      rewrite <- !app_assoc in Hend. cbn [app] in Hend.
      destruct Hend as [[-> Hrun]|(failed & rest & e & st3 & -> & Hfail & Hrun)].
      * left. split; [reflexivity|exact Hrun].
      * right. exists failed, rest, e, st3.
        split; [reflexivity|]. split; [exact Hfail|exact Hrun].
    + exists [], [], []. cbv zeta. split; [constructor|]. right.
      exists tc, calls, e, st1. split; [reflexivity|].
      rewrite !app_nil_r. cbn [for_of]. unfold bind. rewrite Hd.
      destruct st; split; [exact Hd|reflexivity].
Qed.

(** What a served round holds at each position: the call, the backend
    call made for it on the events before it, and the pair of messages it
    left, the tool message with the content made of the backend's result. *)
Lemma Dispatched_nth h calls evs msgs :
  Dispatched o h calls evs msgs ->
  forall i toolCall,
    calls !! i = Some toolCall ->
    exists toolMeta server arguments toolResult,
      let qualified := fd_name (tool_function toolMeta) in
      let serverName := JsString.split_head qualified in
      let toolName :=
        JsString.replace (serverName +:+ "_") EmptyString qualified in
      List.find (has_name (fc_name (tc_function toolCall))) (allFunctions o)
        = Some toolMeta
      /\ servers o !! serverName = Some server
      /\ JSON_parse (fc_arguments (tc_function toolCall)) = Some arguments
      /\ callTool (client server) (h ++ take i evs) toolName arguments
         = inr toolResult
      /\ evs !! i
         = Some (EvCallTool (name server) toolName arguments (inr toolResult))
      /\ msgs !! (2 * i)
         = Some {| role := assistant; content := None;
                   tool_calls := Some [toolCall]; tool_call_id := None |}
      /\ msgs !! (2 * i + 1)
         = Some {| role := tool;
                   content :=
                     Some (match tr_content toolResult with
                           | Some (JStr s) => s
                           | None | Some JNull =>
                               JSON.stringify (JStr EmptyString)
                           | Some v => JSON.stringify v
                           end);
                   tool_calls := None;
                   tool_call_id := Some (tc_id toolCall) |}.
Proof.
  induction 1
    as [h|h tc meta srv a res calls evs msgs q sn tn ev Hf Hs Hp Hc HD IH];
    intros i toolCall Hi.
  - destruct i; discriminate Hi.
  - destruct i as [|i].
    + injection Hi as <-. exists meta, srv, a, res. cbv zeta.
      fold q sn tn. cbn [take]. rewrite app_nil_r.
      repeat split; try assumption.
      cbn. do 4 f_equal. destruct res as [[[]|]]; reflexivity.
    + cbn in Hi. destruct (IH i toolCall Hi)
        as (meta' & srv' & a' & res' & H1 & H2 & H3 & H4 & H5 & H6 & H7).
      exists meta', srv', a', res'. cbv zeta.
      replace (2 * S i) with (S (S (2 * i))) by lia.
      cbn [take]. rewrite <- app_assoc in H4.
      repeat split; assumption.
Qed.

End Dispatch.

Section Query.
Context {P : Platform}.
Variable o : MCPOrchestrator.

Lemma processQuery_unfold query st :
  let r1 := @chat (llm o) (trace st) (seed o query)
              (Some (allFunctions o)) (Some auto) in
  let st1 := after_first_chat o query st r1 in
  processQuery o query st
  = match r1 with
    | inl e => (inl e, st1)
    | inr result =>
        match choices result with
        | {| message := Some response |} :: _ =>
            match rm_tool_calls response with
            | None | Some [] =>
                (inr (nullish (rm_content response) EmptyString), st1)
            | Some calls =>
                match for_of calls (dispatch o) st1 with
                | (inl e, st2) => (inl e, st2)
                | (inr _, st2) =>
                    let r2 := @chat (llm o) (trace st2) (messages st2)
                                None None in
                    (match r2 with
                     | inl e => inl e
                     | inr final => answer_of final
                     end,
                     {| messages := messages st2;
                        trace := trace st2
                                   ++ [EvChat (messages st2) None None r2] |})
                end
            end
        | _ => (inl TypeError, st1)
        end
    end.
Proof.
  cbv zeta. unfold processQuery, bind, modify, llm_chat, after_first_chat,
    first_chat. cbn [messages trace].
  destruct (chat _ _ _ _) as [e|result]; [reflexivity|].
  unfold first_message.
  destruct (choices result) as [|[[response|]] ?]; try reflexivity.
  unfold ret; cbn beta iota.
  destruct (rm_tool_calls response) as [[|tc calls]|]; try reflexivity.
  destruct (for_of (tc :: calls) _ _) as [[e|[]] st2]; [reflexivity|].
  destruct (chat _ (messages st2) _ _) as [e|final]; [reflexivity|].
  unfold final_content, answer_of.
  destruct (choices final); reflexivity.
Qed.

Lemma Dispatched_for_of calls : forall h evs msgs st,
  Dispatched o h calls evs msgs -> trace st = h ->
  for_of calls (dispatch o) st
  = (inr tt, {| messages := messages st ++ msgs; trace := trace st ++ evs |}).
Proof.
  intros h evs msgs st HD. revert st.
  induction HD as [h|h tc meta srv a res calls evs msgs q sn tn ev Hf Hs Hp Hc HD IH];
    intros st Hst.
  - cbn. rewrite !app_nil_r. destruct st; reflexivity.
  - subst h. cbn [for_of]. unfold bind.
    destruct (dispatch_step o tc st)
      as [(meta' & srv' & a' & res' & Hf' & Hs' & Hp' & Hc' & Hd)
         |(e & st1 & Hd & _)].
    + rewrite Hf in Hf'. injection Hf' as <-.
      fold q sn in Hs'. rewrite Hs in Hs'. injection Hs' as <-.
      rewrite Hp in Hp'. injection Hp' as <-.
      fold q sn tn in Hc'. rewrite Hc in Hc'. injection Hc' as <-.
      rewrite Hd. rewrite IH by reflexivity. cbn [messages trace].
      rewrite <- !app_assoc. reflexivity.
    + exfalso. revert Hd. unfold dispatch, bind.
      rewrite Hf. cbn. fold q sn. rewrite Hs. cbn. rewrite Hp. cbn.
      unfold client_callTool. fold tn. rewrite Hc. cbn. discriminate.
Qed.

Lemma call_tool_events_no_chat (evs extra mid : list Event) e :
  Forall (fun x => is_call_tool x = true) (evs ++ extra) ->
  evs ++ extra = mid ++ [e] -> is_chat e = true -> False.
Proof.
  intros HF Heq He. rewrite Heq in HF.
  apply Forall_app in HF as [_ HF]. inversion HF as [|? ? Hc _]; subst.
  destruct e; cbn in *; discriminate.
Qed.

(** The messages and events of any run: the seed, then one pair per
    served call, whatever the outcome. *)
Lemma processQuery_history query st :
  let out := processQuery o query st in
  exists r1 served evs msgs rest,
    Dispatched o (trace (after_first_chat o query st r1)) served evs msgs
    /\ messages (snd out) = seed o query ++ msgs
    /\ trace (snd out) = trace st ++ first_chat o query r1 :: evs ++ rest.
Proof.
  cbv zeta. rewrite processQuery_unfold. cbv zeta.
  set (r1 := chat _ _ _ _). exists r1.
  assert (Hstop : forall x : Error + string,
    exists served evs msgs rest,
      Dispatched o (trace (after_first_chat o query st r1)) served evs msgs
      /\ messages (snd (x, after_first_chat o query st r1)) = seed o query ++ msgs
      /\ trace (snd (x, after_first_chat o query st r1))
         = trace st ++ first_chat o query r1 :: evs ++ rest).
  { intros x. exists [], [], [], []. cbn.
    split; [apply Dispatched_nil | split; reflexivity]. }
  destruct r1 as [e|result] eqn:Hr1; [apply Hstop|].
  destruct (choices result) as [|[[response|]] ?]; try apply Hstop.
  destruct (rm_tool_calls response) as [[|tc calls]|]; try apply Hstop.
  destruct (for_of_dispatch o (tc :: calls) (after_first_chat o query st (inr result)))
    as (served & evs & msgs & extra & HD & Hm & Ht & _).
  cbv zeta in Hm, Ht.
  destruct (for_of (tc :: calls) _ _) as [[e|[]] st2]; cbn [snd] in *.
  - exists served, evs, msgs, extra. rewrite Hm, Ht. cbn.
    rewrite <- app_assoc. auto.
  - eexists served, evs, msgs, (extra ++ [_]). cbn [messages trace snd].
    rewrite Hm, Ht. cbn. rewrite <- !app_assoc. auto.
Qed.

Lemma model_calls_app (a b : list Event) :
  model_calls (a ++ b) = model_calls a + model_calls b.
Proof. unfold model_calls. rewrite List.filter_app, length_app. reflexivity. Qed.

Lemma model_calls_call_tools (evs : list Event) :
  Forall (fun x => is_call_tool x = true) evs -> model_calls evs = 0.
Proof.
  induction 1 as [|e evs He _ IH]; [reflexivity|].
  unfold model_calls in *. destruct e; cbn in *; [discriminate|assumption].
Qed.

(** Every run, case by case. *)
Lemma processQuery_run query st :
  let out := processQuery o query st in
  let r1 := @chat (llm o) (trace st) (seed o query)
              (Some (allFunctions o)) (Some auto) in
  let st1 := after_first_chat o query st r1 in
  match r1 with
  | inl e => out = (inl e, st1)
  | inr result =>
      match requested result with
      | [] => out = (first_answer_of result, st1)
      | calls =>
          exists served evs msgs,
            Dispatched o (trace st1) served evs msgs
            /\ messages (snd out) = seed o query ++ msgs
            /\ ((exists e extra,
                   fst out = inl e
                   /\ trace (snd out) = trace st1 ++ evs ++ extra
                   /\ Forall (fun x => is_call_tool x = true) extra)
                \/ (exists r2,
                      served = calls
                      /\ trace (snd out)
                         = trace st1 ++ evs
                             ++ [EvChat (seed o query ++ msgs) None None r2]
                      /\ fst out = match r2 with
                                   | inl e => inl e
                                   | inr final => answer_of final
                                   end))
      end
  end.
Proof.
  cbv zeta. rewrite processQuery_unfold. cbv zeta.
  set (r1 := chat _ _ _ _).
  destruct r1 as [e|result]; [reflexivity|].
  unfold requested, first_answer_of.
  destruct (choices result) as [|[[response|]] ?]; try reflexivity.
  destruct (rm_tool_calls response) as [[|tc calls]|]; try reflexivity.
  cbn [default].
  destruct (for_of_dispatch o (tc :: calls)
              (after_first_chat o query st (inr result)))
    as (served & evs & msgs & extra & HD & Hm & Ht & Hend).
  cbv zeta in Hm, Ht, Hend.
  destruct (for_of (tc :: calls) _ _) as [[e|[]] st2]; cbn [fst snd] in *.
  - destruct Hend as [(Hr & _)|(e' & failed & rest & Hr & Hcalls & Hextra)];
      [discriminate|].
    assert (Hx : Forall (fun x => is_call_tool x = true) extra).
    { destruct Hextra as [->|(sv & tn & ar & ->)]; repeat constructor. }
    exists served, evs, msgs. split; [assumption|]. split; [assumption|].
    left. exists e, extra. auto.
  - destruct Hend as [(_ & -> & ->)|(e' & failed & rest & Hr & _)];
      [|discriminate].
    rewrite app_nil_r in Ht. cbn [messages trace].
    exists (tc :: calls), evs, msgs.
    split; [assumption|]. split; [assumption|].
    right. eexists. split; [reflexivity|].
    rewrite Ht, Hm. cbn [messages after_first_chat].
    rewrite <- app_assoc. split; reflexivity.
Qed.

(** A call that fails leaves no message behind, and at most the event
    of the backend call that was rejected. *)
Lemma dispatch_fails toolCall st e st3 :
  dispatch o toolCall st = (inl e, st3) ->
  messages st3 = messages st
  /\ (trace st3 = trace st
      \/ exists server toolName arguments,
           trace st3 = trace st
             ++ [EvCallTool server toolName arguments (inl e)]).
Proof.
  intros Hd.
  destruct (dispatch_step o toolCall st)
    as [(meta & srv & a & res & _ & _ & _ & _ & Hd')
       |(e' & st' & Hd' & Hm & Ht)];
    rewrite Hd in Hd'; [discriminate|].
  injection Hd' as <- <-. auto.
Qed.

(** Every run, exactly. *)
Lemma processQuery_exact query st :
  let out := processQuery o query st in
  let r1 := @chat (llm o) (trace st) (seed o query)
              (Some (allFunctions o)) (Some auto) in
  let st1 := after_first_chat o query st r1 in
  match r1 with
  | inl e => out = (inl e, st1)
  | inr result =>
      match requested result with
      | [] => out = (first_answer_of result, st1)
      | calls =>
          exists served evs msgs,
            let st2 := {| messages := seed o query ++ msgs;
                          trace := trace st1 ++ evs |} in
            Dispatched o (trace st1) served evs msgs
            /\ ((exists failed rest e st3,
                   calls = served ++ failed :: rest
                   /\ dispatch o failed st2 = (inl e, st3)
                   /\ out = (inl e, st3))
                \/ (served = calls
                    /\ let r2 := @chat (llm o) (trace st2)
                                   (seed o query ++ msgs) None None in
                       out = (match r2 with
                              | inl e => inl e
                              | inr final => answer_of final
                              end,
                              {| messages := seed o query ++ msgs;
                                 trace := trace st2
                                   ++ [EvChat (seed o query ++ msgs)
                                         None None r2] |})))
      end
  end.
Proof.
  cbv zeta. rewrite processQuery_unfold. cbv zeta.
  set (r1 := chat _ _ _ _).
  destruct r1 as [e|result]; [reflexivity|].
  unfold requested, first_answer_of.
  destruct (choices result) as [|[[response|]] ?]; try reflexivity.
  destruct (rm_tool_calls response) as [[|tc calls]|]; try reflexivity.
  cbn [default].
  destruct (for_of_dispatch_run o (tc :: calls)
              (after_first_chat o query st (inr result)))
    as (served & evs & msgs & HD & Hend).
  cbv zeta in Hend. cbn [messages after_first_chat] in Hend.
  exists served, evs, msgs. split; [exact HD|].
  destruct Hend as [[-> Hrun]|(failed & rest & e & st3 & Hcalls & Hfail & Hrun)];
    rewrite Hrun.
  - right. split; [reflexivity|]. reflexivity.
  - left. exists failed, rest, e, st3. auto.
Qed.

(** C1, amended: a query makes at most one dispatch round.  The model is
    called once; a response without tool calls ends the query with its
    content; otherwise its tool calls are dispatched in order.  If one of
    them fails, the calls before it have been served and the query fails
    with the error of that call, in the state that call leaves, without a
    further model call.  If all of them are served, the model is called
    exactly once more, on the history they left, and that second response
    is the answer whether or not it carries tool calls.  No run has more
    than two model calls. *)
Theorem processQuery_single_dispatch_round query st :
  let out := processQuery o query st in
  let r1 := @chat (llm o) (trace st) (seed o query)
              (Some (allFunctions o)) (Some auto) in
  let st1 := after_first_chat o query st r1 in
  model_calls (trace (snd out)) <= model_calls (trace st) + 2
  /\ match r1 with
     | inl e => out = (inl e, st1)
     | inr result =>
         match requested result with
         | [] => out = (first_answer_of result, st1)
         | calls =>
             exists served evs msgs,
               let st2 := {| messages := seed o query ++ msgs;
                             trace := trace st1 ++ evs |} in
               Dispatched o (trace st1) served evs msgs
               /\ messages (snd out) = seed o query ++ msgs
               /\ ((exists failed rest e st3,
                      calls = served ++ failed :: rest
                      /\ dispatch o failed st2 = (inl e, st3)
                      /\ out = (inl e, st3)
                      /\ (trace st3 = trace st2
                          \/ exists server toolName arguments,
                               trace st3 = trace st2
                                 ++ [EvCallTool server toolName arguments
                                       (inl e)])
                      /\ model_calls (trace st3) = model_calls (trace st) + 1)
                   \/ (served = calls
                       /\ let r2 := @chat (llm o) (trace st2)
                                      (seed o query ++ msgs) None None in
                          out = (match r2 with
                                 | inl e => inl e
                                 | inr final => answer_of final
                                 end,
                                 {| messages := seed o query ++ msgs;
                                    trace := trace st2
                                      ++ [EvChat (seed o query ++ msgs)
                                            None None r2] |})
                          /\ model_calls (trace (snd out))
                             = model_calls (trace st) + 2))
         end
     end.
Proof.
  cbv zeta. pose proof (processQuery_exact query st) as Hrun.
  cbv zeta in Hrun.
  set (r1 := chat _ _ _ _) in *.
  assert (Hone : forall x : Error + string,
    processQuery o query st = (x, after_first_chat o query st r1) ->
    model_calls (trace (snd (processQuery o query st)))
    <= model_calls (trace st) + 2).
  { intros x ->. unfold after_first_chat. cbn [snd trace].
    rewrite model_calls_app. cbn. lia. }
  destruct r1 as [e|result]; [split; [eapply Hone; eassumption|exact Hrun]|].
  destruct (requested result) as [|tc calls];
    [split; [eapply Hone; eassumption|exact Hrun]|].
  destruct Hrun as (served & evs & msgs & HD & Hend).
  destruct (Dispatched_lengths o _ _ _ _ HD) as (_ & _ & Hevs).
  assert (Hround : model_calls
                     (trace (after_first_chat o query st (inr result)) ++ evs)
                   = model_calls (trace st) + 1).
  { unfold after_first_chat. cbn [trace]. rewrite !model_calls_app.
    rewrite (model_calls_call_tools evs) by assumption. cbn. lia. }
  destruct Hend as [(failed & rest & e & st3 & Hcalls & Hfail & Hout)
                   |(Hserved & Hout)].
  - destruct (dispatch_fails _ _ _ _ Hfail) as [Hm Ht].
    cbn [messages trace] in Hm, Ht.
    assert (Hcount : model_calls (trace st3) = model_calls (trace st) + 1).
    { destruct Ht as [->|(sv & tn & ar & ->)]; [exact Hround|].
      rewrite model_calls_app, Hround. cbn. lia. }
    rewrite Hout. cbn [snd]. split; [lia|].
    exists served, evs, msgs. split; [exact HD|]. split; [exact Hm|].
    left. exists failed, rest, e, st3. auto 6.
  - assert (Hcount : model_calls (trace (snd (processQuery o query st)))
                     = model_calls (trace st) + 2).
    { rewrite Hout. cbn [snd trace]. rewrite model_calls_app, Hround.
      cbn. lia. }
    split; [lia|].
    exists served, evs, msgs. split; [exact HD|].
    split; [rewrite Hout; reflexivity|].
    right. split; [exact Hserved|]. split; [exact Hout|exact Hcount].
Qed.

(** C5, amended: the first model call of a query is made with the seed
    history, the complete flattened tool set and tool choice [auto]; the
    second and last one, made after the dispatch round, is made with the
    full history and with no tool set and no tool choice, which both
    adapters default to the empty tool list. *)
Theorem processQuery_chat_arguments query st :
  let out := processQuery o query st in
  (exists r1 evs tail,
     trace (snd out)
     = trace st
         ++ EvChat (seed o query) (Some (allFunctions o)) (Some auto) r1
         :: evs ++ tail
     /\ Forall (fun x => is_call_tool x = true) evs
     /\ (tail = []
         \/ exists r2, tail = [EvChat (messages (snd out)) None None r2]))
  /\ (forall openai h msgs,
        @chat (GPT openai) h msgs None None
        = openai h {| Gpt.model := "gpt-4-1106-preview";
                      Gpt.messages := msgs;
                      Gpt.tools := [];
                      Gpt.tool_choice := auto |})
  /\ (forall anthropic h msgs,
        @chat (Claude anthropic) h msgs None None
        = @chat (Claude anthropic) h msgs (Some []) (Some auto)).
Proof.
  cbv zeta. split; [|split; reflexivity].
  pose proof (processQuery_run query st) as Hrun. cbv zeta in Hrun.
  set (r1 := chat _ _ _ _) in Hrun. exists r1.
  assert (Hstop : forall x : Error + string,
    processQuery o query st = (x, after_first_chat o query st r1) ->
    exists evs tail,
      trace (snd (processQuery o query st))
      = trace st ++ first_chat o query r1 :: evs ++ tail
      /\ Forall (fun x => is_call_tool x = true) evs
      /\ (tail = []
          \/ exists r2,
               tail = [EvChat (messages (snd (processQuery o query st)))
                         None None r2])).
  { intros x ->. exists [], []. cbn. repeat split; auto. }
  destruct r1 as [e|result]; [eapply Hstop; eassumption|].
  destruct (requested result) as [|tc calls]; [eapply Hstop; eassumption|].
  destruct Hrun as (served & evs & msgs & HD & Hm
                    & [(e & extra & Hr & Ht & Hx)|(r2 & -> & Ht & Hr)]).
  - destruct (Dispatched_lengths o _ _ _ _ HD) as (_ & _ & Hevs).
    exists (evs ++ extra), []. rewrite Ht. cbn. rewrite app_nil_r.
    rewrite <- app_assoc. split; [reflexivity|].
    split; [apply Forall_app; auto|auto].
  - destruct (Dispatched_lengths o _ _ _ _ HD) as (_ & _ & Hevs).
    exists evs. eexists. rewrite Ht, Hm. cbn. rewrite <- app_assoc.
    split; [reflexivity|]. split; [assumption|]. right. eauto.
Qed.

Lemma requested_cons result tc calls :
  requested result = tc :: calls ->
  exists response cs,
    choices result = {| message := Some response |} :: cs
    /\ rm_tool_calls response = Some (tc :: calls).
Proof.
  unfold requested.
  destruct (choices result) as [|[[response|]] cs];
    try (intros H; discriminate H).
  destruct (rm_tool_calls response) as [l|] eqn:Hcalls; cbn;
    [|intros H; discriminate H].
  intros ->. exists response, cs. split; [reflexivity|assumption].
Qed.


Lemma Dispatched_known h calls evs msgs :
  Dispatched o h calls evs msgs ->
  (forall c, c ∈ calls ->
     List.find (has_name (fc_name (tc_function c))) (allFunctions o) <> None)
  /\ (forall m c, m ∈ msgs -> tool_calls m = Some [c] -> c ∈ calls).
Proof.
  induction 1 as [|h tc meta srv a res calls evs msgs q sn tn ev Hf ? ? ? ? IH].
  - split; intros; match goal with H : _ ∈ [] |- _ => inversion H end.
  - destruct IH as [IH1 IH2]. split.
    + intros c Hc. apply elem_of_cons in Hc as [->|Hc]; [congruence|auto].
    + intros m c Hm Hcalls.
      apply elem_of_cons in Hm as [->|Hm];
        [injection Hcalls as <-; left|].
      apply elem_of_cons in Hm as [->|Hm]; [discriminate|].
      right. eauto.
Qed.

Lemma prefix_before_absent {A} (a b c d : list A) (x y : A) :
  a ++ x :: b = c ++ y :: d -> y ∉ a -> a `prefix_of` c.
Proof.
  revert c. induction a as [|z a IH]; intros c Heq Hy; [apply prefix_nil|].
  destruct c as [|z' c]; cbn in Heq; injection Heq as -> Heq.
  - exfalso. apply Hy. left.
  - apply prefix_cons, IH; [exact Heq|].
    intros Hin. apply Hy. right. exact Hin.
Qed.

(** C8, amended: only the first response of a query is dispatched.  When
    it carries a tool call whose name is not in the registry, the query
    fails, no further model call is made and no message of the history
    carries that call.  The calls are dispatched in order, so the query
    fails at the first call that fails, at or before the unknown one, with
    that call's error and the history the calls served before it left.
    When every call before the unknown one is served, the failure is the
    unknown-tool error and the history is the one those calls left: for
    the failed call no assistant message, no tool message and no backend
    call is added. *)
Theorem unknown_tool_aborts_query query st result served toolCall rest :
  @chat (llm o) (trace st) (seed o query) (Some (allFunctions o)) (Some auto)
  = inr result ->
  requested result = served ++ toolCall :: rest ->
  List.find (has_name (fc_name (tc_function toolCall))) (allFunctions o)
  = None ->
  let out := processQuery o query st in
  (exists e, fst out = inl e)
  /\ model_calls (trace (snd out)) = model_calls (trace st) + 1
  /\ (forall m, m ∈ messages (snd out) -> tool_calls m <> Some [toolCall])
  /\ (forall evs msgs,
        Dispatched o (trace st ++ [first_chat o query (inr result)])
          served evs msgs ->
        out = (inl (UnknownToolError (fc_name (tc_function toolCall))),
               {| messages := seed o query ++ msgs;
                  trace := trace st ++ first_chat o query (inr result) :: evs |})
        /\ length msgs = 2 * length served)
  /\ (exists done failed later evs msgs e st3,
        requested result = done ++ failed :: later
        /\ done `prefix_of` served
        /\ Dispatched o (trace st ++ [first_chat o query (inr result)])
             done evs msgs
        /\ dispatch o failed
             {| messages := seed o query ++ msgs;
                trace := (trace st ++ [first_chat o query (inr result)])
                           ++ evs |}
           = (inl e, st3)
        /\ out = (inl e, st3)
        /\ messages st3 = seed o query ++ msgs
        /\ length msgs = 2 * length done
        /\ (done = served ->
            failed = toolCall
            /\ e = UnknownToolError (fc_name (tc_function toolCall))
            /\ trace st3
               = (trace st ++ [first_chat o query (inr result)]) ++ evs)).
Proof.
  intros Hchat Hreq Hfind out. subst out.
  assert (Hin : toolCall ∈ requested result).
  { rewrite Hreq. apply elem_of_app. right. left. }
  split; [|split; [|split; [|split]]].
  - pose proof (processQuery_run query st) as Hrun. cbv zeta in Hrun.
    rewrite Hchat in Hrun.
    destruct (requested result) as [|tc calls]; [inversion Hin|].
    destruct Hrun as (done & evs & msgs & HD & _
                      & [(e & extra & Hr & _)|(r2 & -> & _)]); [eauto|].
    destruct (Dispatched_known _ _ _ _ HD) as [Hknown _].
    destruct (Hknown toolCall Hin Hfind).
  - pose proof (processQuery_run query st) as Hrun. cbv zeta in Hrun.
    rewrite Hchat in Hrun.
    destruct (requested result) as [|tc calls]; [inversion Hin|].
    destruct Hrun as (done & evs & msgs & HD & _
                      & [(e & extra & _ & Ht & Hx)|(r2 & -> & _)]).
    + destruct (Dispatched_lengths o _ _ _ _ HD) as (_ & _ & Hevs).
      rewrite Ht. unfold after_first_chat. cbn [trace].
      rewrite !model_calls_app.
      rewrite (model_calls_call_tools evs), (model_calls_call_tools extra)
        by assumption. cbn. lia.
    + destruct (Dispatched_known _ _ _ _ HD) as [Hknown _].
      destruct (Hknown toolCall Hin Hfind).
  - intros m Hm Hcalls.
    destruct (processQuery_history query st)
      as (r1 & done & evs & msgs & more & HD & Hmsgs & _).
    rewrite Hmsgs in Hm. apply elem_of_app in Hm as [Hm|Hm].
    + unfold seed in Hm.
      apply elem_of_cons in Hm as [->|Hm]; [discriminate|].
      apply elem_of_cons in Hm as [->|Hm]; [discriminate|inversion Hm].
    + destruct (Dispatched_known _ _ _ _ HD) as [Hknown Hcarried].
      exact (Hknown toolCall (Hcarried m toolCall Hm Hcalls) Hfind).
  - intros evs msgs HD.
    split; [|apply (Dispatched_lengths o _ _ _ _ HD)].
    rewrite processQuery_unfold. cbv zeta. rewrite Hchat.
    destruct (served ++ toolCall :: rest) as [|tc calls] eqn:Hcalls;
      [destruct served; discriminate|].
    destruct (requested_cons _ _ _ Hreq) as (response & cs & -> & ->).
    rewrite <- Hcalls, for_of_app.
    rewrite (Dispatched_for_of served _ evs msgs _ HD) by reflexivity.
    cbn [for_of messages trace after_first_chat]. unfold bind at 1.
    unfold dispatch at 1. unfold bind at 1. rewrite Hfind. cbn.
    rewrite <- app_assoc. reflexivity.
  - pose proof (processQuery_exact query st) as Hrun. cbv zeta in Hrun.
    rewrite Hchat in Hrun.
    destruct (requested result) as [|tc calls] eqn:Hcalls; [inversion Hin|].
    destruct Hrun as (done & evs & msgs & HD
                      & [(failed & later & e & st3 & Hsplit & Hfail & Hout)
                        |(Hall & _)]).
    + destruct (Dispatched_known _ _ _ _ HD) as [Hknown _].
      destruct (Dispatched_lengths o _ _ _ _ HD) as (_ & Hlen & _).
      destruct (dispatch_fails _ _ _ _ Hfail) as [Hm _].
      cbn [messages] in Hm.
      exists done, failed, later, evs, msgs, e, st3.
      split; [exact Hsplit|].
      split; [rewrite Hsplit in Hreq;
              apply (prefix_before_absent _ _ _ _ _ _ Hreq);
              intros Hdone; exact (Hknown toolCall Hdone Hfind)|].
      split; [exact HD|]. split; [exact Hfail|]. split; [exact Hout|].
      split; [exact Hm|]. split; [exact Hlen|].
      intros ->. rewrite Hsplit in Hreq. apply app_inv_head in Hreq.
      injection Hreq as -> _.
      revert Hfail. unfold dispatch at 1. unfold bind at 1.
      rewrite Hfind. cbn. intros [= <- <-]. auto.
    + exfalso. subst done.
      destruct (Dispatched_known _ _ _ _ HD) as [Hknown _].
      exact (Hknown toolCall Hin Hfind).
Qed.

Lemma Dispatched_tool_messages h calls evs msgs m :
  Dispatched o h calls evs msgs -> m ∈ msgs -> role m = tool ->
  exists server toolName arguments toolResult,
    EvCallTool server toolName arguments (inr toolResult) ∈ evs
    /\ content m = Some (result_content toolResult).
Proof.
  induction 1 as [|h tc meta srv a res calls evs msgs q sn tn ev ? ? ? ? ? IH];
    intros Hin Hrole.
  - inversion Hin.
  - apply elem_of_cons in Hin as [->|Hin]; [discriminate|].
    apply elem_of_cons in Hin as [->|Hin].
    + exists (name srv), tn, a, res. split; [left|reflexivity].
    + destruct (IH Hin Hrole) as (sv & tn' & ar & res' & Hev & Hc).
      exists sv, tn', ar, res'. split; [right; assumption|assumption].
Qed.

Lemma result_content_cases toolResult :
  result_content toolResult
  = match tr_content toolResult with
    | Some (JStr s) => s
    | None | Some JNull => JSON.stringify (JStr EmptyString)
    | Some v => JSON.stringify v
    end.
Proof. destruct toolResult as [[[]|]]; reflexivity. Qed.

(** C10: for every backend result the content made of it is a string: a
    string result is kept as it is, an absent (or null) result gives the
    serialization of the empty string, which is the text of two double
    quotes, and any other result is serialized.  Every tool message of the
    history has such a string as content, made from the result of a backend
    call of the run. *)
Theorem tool_message_content_is_string query st :
  (forall toolResult,
      result_content toolResult
      = match tr_content toolResult with
        | Some (JStr s) => s
        | None | Some JNull => JSON.stringify (JStr EmptyString)
        | Some v => JSON.stringify v
        end)
  /\ JSON.stringify (JStr EmptyString) = JSON.dquote +:+ JSON.dquote
  /\ String.length (JSON.stringify (JStr EmptyString)) = 2
  /\ forall m,
       m ∈ messages (snd (processQuery o query st)) ->
       role m = tool ->
       exists server toolName arguments toolResult,
         EvCallTool server toolName arguments (inr toolResult)
           ∈ trace (snd (processQuery o query st))
         /\ content m = Some (result_content toolResult).
Proof.
  split; [exact result_content_cases|].
  split; [reflexivity|]. split; [reflexivity|].
  intros m Hin Hrole.
  destruct (processQuery_history query st)
    as (r1 & served & evs & msgs & rest & HD & Hm & Ht).
  rewrite Hm in Hin. apply elem_of_app in Hin as [Hin|Hin].
  - unfold seed in Hin.
    apply elem_of_cons in Hin as [->|Hin]; [discriminate|].
    apply elem_of_cons in Hin as [->|Hin]; [discriminate|inversion Hin].
  - destruct (Dispatched_tool_messages _ _ _ _ _ HD Hin Hrole)
      as (sv & tn & ar & res & Hev & Hc).
    exists sv, tn, ar, res. split; [|assumption].
    rewrite Ht. apply elem_of_app. right. right.
    apply elem_of_app. left. assumption.
Qed.

End Query.

Section Names.

Lemma append_cons c a b : String c a +:+ b = String c (a +:+ b).
Proof. reflexivity. Qed.

Lemma append_nil b : EmptyString +:+ b = b.
Proof. reflexivity. Qed.

Lemma append_assoc a b c : (a +:+ b) +:+ c = a +:+ (b +:+ c).
Proof.
  induction a as [|x a IH]; [reflexivity|].
  rewrite !append_cons, IH. reflexivity.
Qed.

Lemma sanitize_app a b :
  JsString.sanitize (a +:+ b) = JsString.sanitize a +:+ JsString.sanitize b.
Proof.
  induction a as [|c a IH]; [reflexivity|].
  rewrite append_cons. cbn [JsString.sanitize]. rewrite append_cons, IH.
  reflexivity.
Qed.

Lemma sanitize_safe n : identifier_safe n = true -> JsString.sanitize n = n.
Proof.
  induction n as [|c n IH]; cbn; [reflexivity|].
  intros H. apply andb_prop in H as [H Hn]. apply andb_prop in H as [Hc _].
  rewrite Hc, IH by assumption. reflexivity.
Qed.

Lemma split_head_safe n r :
  identifier_safe n = true ->
  JsString.split_head (n +:+ String JsString.underscore r) = n.
Proof.
  induction n as [|c n IH]; [reflexivity|].
  rewrite append_cons. cbn [JsString.split_head identifier_safe].
  intros H. apply andb_prop in H as [H Hn]. apply andb_prop in H as [_ Hc].
  apply negb_true_iff in Hc. rewrite Hc, IH by assumption. reflexivity.
Qed.

Lemma append_inj n a b : n +:+ a = n +:+ b -> a = b.
Proof.
  induction n as [|c n IH]; [auto|].
  rewrite !append_cons. intros [= H]. auto.
Qed.

Lemma starts_with_append p r : JsString.starts_with p (p +:+ r) = true.
Proof.
  induction p as [|c p IH]; [reflexivity|].
  rewrite append_cons. cbn [JsString.starts_with].
  rewrite Ascii.eqb_refl. exact IH.
Qed.

Lemma drop_append p r : JsString.drop (String.length p) (p +:+ r) = r.
Proof.
  induction p as [|c p IH]; [destruct r; reflexivity|].
  rewrite append_cons. exact IH.
Qed.

Lemma replace_unfold pat rep s :
  JsString.replace pat rep s
  = if JsString.starts_with pat s
    then rep +:+ JsString.drop (String.length pat) s
    else match s with
         | EmptyString => EmptyString
         | String c r => String c (JsString.replace pat rep r)
         end.
Proof. destruct s; reflexivity. Qed.

Lemma replace_prefix pat r :
  JsString.replace pat EmptyString (pat +:+ r) = r.
Proof.
  rewrite replace_unfold, starts_with_append, drop_append. reflexivity.
Qed.

(** The advertised name of a tool of a server with a safe name: the name,
    the separator, the sanitized native name. *)
Lemma qualifiedName_safe n t :
  identifier_safe n = true ->
  qualifiedName (toolDescriptor n t)
  = n +:+ String JsString.underscore (JsString.sanitize (nt_name t)).
Proof.
  intros H. unfold qualifiedName, toolDescriptor.
  cbn [tool_function fd_name].
  rewrite sanitize_app, (sanitize_safe n H). reflexivity.
Qed.

(** What dispatch reads off the advertised name of a tool of a server with
    a safe name: the server name, and the sanitized native tool name. *)
Lemma resolution_of_safe_names n t :
  identifier_safe n = true ->
  let advertised := qualifiedName (toolDescriptor n t) in
  JsString.split_head advertised = n
  /\ JsString.replace (JsString.split_head advertised +:+ "_") EmptyString
       advertised
     = JsString.sanitize (nt_name t).
Proof.
  intros Hsafe advertised. subst advertised.
  rewrite qualifiedName_safe by assumption.
  rewrite split_head_safe by assumption. split; [reflexivity|].
  change (String JsString.underscore (JsString.sanitize (nt_name t)))
    with ("_" +:+ JsString.sanitize (nt_name t)).
  rewrite <- append_assoc. apply replace_prefix.
Qed.

End Names.

Section Registry.
Context {P : Platform}.

Lemma registry_ok_new l prompt : registry_ok (MCPOrchestrator_new l prompt).
Proof. split; [constructor|]. intros f Hf. inversion Hf. Qed.

Lemma bind_server_ok o n c t tools :
  registry_ok o -> servers o !! n = None -> identifier_safe n = true ->
  distinct_tools tools ->
  registry_ok (bind_server n c t (List.map (toolDescriptor n) tools) o).
Proof.
  intros [Hnd Hsrv] Hfresh Hsafe Htools. split; cbn.
  - rewrite List.map_app. apply NoDup_app. split; [assumption|]. split.
    + intros x Hold Hnew.
      apply list_elem_of_fmap in Hold as (f & -> & Hf).
      rewrite List.map_map in Hnew.
      apply list_elem_of_fmap in Hnew as (tl & Heq & _).
      destruct (Hsrv f Hf) as [srv Hs].
      rewrite Heq, qualifiedName_safe, split_head_safe in Hs by assumption.
      congruence.
    + rewrite List.map_map. unfold distinct_tools in Htools.
      revert Htools. induction tools as [|tl tools IH]; cbn [List.map];
        [constructor|].
      intros Hnd'. apply NoDup_cons in Hnd' as [Hnotin Hnd'].
      apply NoDup_cons. split; [|auto].
      intros Hin. apply Hnotin.
      apply list_elem_of_fmap in Hin as (t' & Heq & Ht').
      rewrite !qualifiedName_safe in Heq by assumption.
      apply append_inj in Heq. injection Heq as Heq.
      apply list_elem_of_fmap. exists t'. auto.
  - intros f Hf. apply elem_of_app in Hf as [Hf|Hf].
    + destruct (Hsrv f Hf) as [srv Hs].
      destruct (decide (n = JsString.split_head (qualifiedName f))) as [->|Hne].
      * rewrite lookup_insert_eq. eauto.
      * rewrite lookup_insert_ne by assumption. eauto.
    + apply list_elem_of_fmap in Hf as (tl & -> & _).
      rewrite qualifiedName_safe, split_head_safe by assumption.
      rewrite lookup_insert_eq. eauto.
Qed.

Lemma registerServer_entry n scriptPath :
  registerServer n scriptPath = register_entry n (script_transport scriptPath).
Proof. reflexivity. Qed.

Lemma registerServersFromConfig_entries configPath o :
  registerServersFromConfig configPath o
  = match readConfig configPath with
    | inl e => (inl e, o)
    | inr config =>
        for_of config (fun entry => register_entry (fst entry) (snd entry)) o
    end.
Proof.
  unfold registerServersFromConfig, bind, await.
  destruct (readConfig configPath); reflexivity.
Qed.

(** A registration either binds the server or fails in [connect] or
    [listTools] and leaves the orchestrator as it was. *)
Lemma register_entry_cases n t o :
  (exists c tools,
      connect ("mcp-" +:+ n) t = inr c /\ listTools c = inr tools
      /\ register_entry n t o
         = (inr tt, bind_server n c t (List.map (toolDescriptor n) tools) o))
  \/ (exists e,
        register_entry n t o = (inl e, o)
        /\ (connect ("mcp-" +:+ n) t = inl e
            \/ exists c, connect ("mcp-" +:+ n) t = inr c
                         /\ listTools c = inl e)).
Proof.
  unfold register_entry, bind, await, modify.
  destruct (connect _ t) as [e|c]; [right; eauto|].
  destruct (listTools c) as [e|tools] eqn:Hl; [right; eauto 6|].
  left. eauto.
Qed.

Hypothesis backends_list_distinct_tools :
  forall info t c tools,
    connect info t = inr c -> listTools c = inr tools -> distinct_tools tools.

Lemma register_entry_ok n t o :
  registry_ok o -> fresh_names o [n] ->
  registry_ok (snd (register_entry n t o))
  /\ keys_from o (snd (register_entry n t o)) [n].
Proof.
  intros Hok Hfresh. destruct (Hfresh n) as [Hnone Hsafe]; [left|].
  destruct (register_entry_cases n t o)
    as [(c & tools & Hc & Hl & ->)|(e & -> & _)]; cbn [snd].
  - split.
    + apply bind_server_ok; eauto.
    + intros m Hm. cbn in Hm.
      destruct (decide (n = m)) as [->|Hne]; [right; left|].
      rewrite lookup_insert_ne in Hm by assumption. auto.
  - split; [assumption|]. intros m Hm. auto.
Qed.

Lemma for_of_entries_ok config : forall o,
  registry_ok o -> NoDup (List.map fst config) ->
  fresh_names o (List.map fst config) ->
  let o' := snd (for_of config
                   (fun entry => register_entry (fst entry) (snd entry)) o) in
  registry_ok o' /\ keys_from o o' (List.map fst config).
Proof.
  induction config as [|[n t] config IH]; intros o Hok Hnd Hfresh; cbv zeta.
  - cbn. split; [assumption|]. intros m Hm. auto.
  - cbn [List.map fst] in Hnd, Hfresh. apply NoDup_cons in Hnd as [Hn Hnd].
    destruct (register_entry_ok n t o Hok) as [Hok1 Hkeys1].
    { intros m Hm. apply Hfresh. apply list_elem_of_singleton in Hm as ->. left. }
    cbn [for_of]. unfold bind. cbn [fst snd].
    destruct (register_entry n t o) as [[e|[]] o1]; cbn [snd] in *.
    + split; [assumption|]. intros m Hm.
      destruct (Hkeys1 m Hm) as [?|Hin]; [auto|].
      apply list_elem_of_singleton in Hin as ->. right. left.
    + destruct (IH o1 Hok1 Hnd) as [Hok' Hkeys'].
      { intros m Hm. split; [|apply Hfresh; right; assumption].
        destruct (servers o1 !! m) eqn:Hl; [|reflexivity]. exfalso.
        destruct (Hkeys1 m (mk_is_Some _ _ Hl)) as [[x Hx]|Hin].
        - destruct (Hfresh m) as [Hnone _]; [right; assumption|]. congruence.
        - apply list_elem_of_singleton in Hin as ->. contradiction. }
      split; [assumption|]. intros m Hm.
      destruct (Hkeys' m Hm) as [Hm1|Hin]; [|right; right; assumption].
      destruct (Hkeys1 m Hm1) as [?|Hin]; [auto|].
      apply list_elem_of_singleton in Hin as ->. right. left.
Qed.

Lemma register_ok r o :
  registry_ok o -> NoDup (names_of r) -> fresh_names o (names_of r) ->
  registry_ok (snd (register r o))
  /\ keys_from o (snd (register r o)) (names_of r).
Proof.
  destruct r as [n scriptPath|configPath]; cbn [register names_of].
  - intros Hok _ Hfresh. rewrite registerServer_entry.
    apply register_entry_ok; assumption.
  - rewrite registerServersFromConfig_entries.
    destruct (readConfig configPath) as [e|config].
    + intros Hok _ _. split; [assumption|]. intros m Hm. auto.
    + intros Hok Hnd Hfresh. apply for_of_entries_ok; assumption.
Qed.

Lemma for_of_register_ok regs : forall o,
  registry_ok o -> NoDup (flat_map names_of regs) ->
  fresh_names o (flat_map names_of regs) ->
  registry_ok (snd (for_of regs register o)).
Proof.
  induction regs as [|r regs IH]; intros o Hok Hnd Hfresh; [assumption|].
  cbn [flat_map] in Hnd, Hfresh.
  apply NoDup_app in Hnd as (Hnd1 & Hdisj & Hnd2).
  destruct (register_ok r o Hok Hnd1) as [Hok1 Hkeys1].
  { intros m Hm. apply Hfresh, elem_of_app. auto. }
  cbn [for_of]. unfold bind.
  destruct (register r o) as [[e|[]] o1]; cbn [snd] in *; [assumption|].
  apply IH; [assumption|assumption|].
  intros m Hm. split; [|apply Hfresh, elem_of_app; auto].
  destruct (servers o1 !! m) eqn:Hl; [|reflexivity]. exfalso.
  destruct (Hkeys1 m (mk_is_Some _ _ Hl)) as [[x Hx]|Hin].
  - destruct (Hfresh m) as [Hnone _]; [apply elem_of_app; auto|]. congruence.
  - exact (Hdisj m Hin Hm).
Qed.

End Registry.

Section RegistryClaims.
Context {P : Platform}.


(** C6, amended: registering under a name that is already registered does
    not fail.  When the backend connects and lists its tools, the entry of
    the server map under that name is replaced by the new binding, the new
    descriptors are appended to the flattened list after the old ones, and
    the call returns normally; this holds for [registerServer] and for
    [registerServersFromConfig] alike. *)
Theorem duplicate_registration_is_accepted o n old c tools t :
  servers o !! n = Some old ->
  connect ("mcp-" +:+ n) t = inr c ->
  listTools c = inr tools ->
  let o' := bind_server n c t (List.map (toolDescriptor n) tools) o in
  (forall scriptPath,
      script_transport scriptPath = t ->
      registerServer n scriptPath o = (inr tt, o'))
  /\ (forall configPath,
        readConfig configPath = inr [(n, t)] ->
        registerServersFromConfig configPath o = (inr tt, o'))
  /\ servers o' !! n
     = Some {| name := n; client := c; transport := t;
               functions := List.map (toolDescriptor n) tools |}
  /\ (forall m, m <> n -> servers o' !! m = servers o !! m)
  /\ allFunctions o' = allFunctions o ++ List.map (toolDescriptor n) tools.
Proof.
  intros Hold Hc Hl o'.
  assert (Hrun : register_entry n t o = (inr tt, o')).
  { unfold register_entry, bind, await, modify. rewrite Hc, Hl. reflexivity. }
  split; [|split; [|split; [|split]]].
  - intros scriptPath <-. rewrite registerServer_entry. exact Hrun.
  - intros configPath Hcfg. rewrite registerServersFromConfig_entries, Hcfg.
    cbn [for_of fst snd]. unfold bind. rewrite Hrun. reflexivity.
  - apply lookup_insert_eq.
  - intros m Hm. apply lookup_insert_ne. congruence.
  - reflexivity.
Qed.

End RegistryClaims.

(** * The model run on concrete inputs *)

Section Scenarios.
Import Sample.

(** The two scenarios of the specification. *)
Example direct_answer :
  fst (processQuery
         (started (GPT (scripted [reply (Some "4") None])) "./mcp.servers.json")
         "what is 2+2" idle)
  = inr "4".
Proof. vm_compute. reflexivity. Qed.

Example one_tool_round :
  let out := processQuery (started asks_once "./mcp.servers.json")
               "what is 2+2" idle in
  fst out = inr "The answer is 4"
  /\ List.filter is_call_tool (trace (snd out))
     = [EvCallTool "math" "add" (JObj [("a", JNum 2); ("b", JNum 2)])
          (inr {| tr_content := Some (JNum 4) |})].
Proof. vm_compute. split; reflexivity. Qed.

(** A backend result without content becomes the text of two double
    quotes in the tool message. *)
Example absent_result_content :
  let ask := GPT (scripted [reply None (Some [call "c1" "quiet_ping" "{}"]);
                            reply (Some "pong") None]) in
  messages (snd (processQuery (started ask "./silent.json") "ping" idle)) !! 3
  = Some {| role := tool; content := Some (JSON.dquote +:+ JSON.dquote);
            tool_calls := None; tool_call_id := Some "c1" |}.
Proof. vm_compute. reflexivity. Qed.

(** C1, counterexample: the model asks for a tool in each of its first two
    responses; the query nevertheless ends after the second response, with
    that response's text as the answer, after two model calls and a single
    backend call. *)
Lemma processQuery_stops_after_second_response :
  let out := processQuery (started eager "./mcp.servers.json")
               "what is 2+2" idle in
  List.map requested (chat_replies (trace (snd out))) = [[add22]; [add45]]
  /\ fst out = inr "more"
  /\ model_calls (trace (snd out)) = 2
  /\ List.filter is_call_tool (trace (snd out))
     = [EvCallTool "math" "add" (JObj [("a", JNum 2); ("b", JNum 2)])
          (inr {| tr_content := Some (JNum 4) |})].
Proof. vm_compute. repeat split; reflexivity. Qed.

(** C8, counterexample: a tool call whose name is not in the registry
    does not always end the query with the unknown-tool error.  Carried by
    the second response it is never looked up and the query returns that
    response's text; placed after a call whose arguments do not parse, the
    query fails with the syntax error of that earlier call. *)
Lemma unknown_tool_without_unknown_tool_error :
  let divide := call "call_9" "math_divide" "{}" in
  let late := GPT (scripted [reply None (Some [add22]);
                             reply (Some "done") (Some [divide])]) in
  let early := GPT (scripted [reply None
                                (Some [call "call_0" "math_add" "{"; divide])]) in
  let run l := processQuery (started l "./mcp.servers.json")
                 "what is 2+2" idle in
  List.find (has_name "math_divide")
    (allFunctions (started late "./mcp.servers.json")) = None
  /\ List.map requested (chat_replies (trace (snd (run late))))
     = [[add22]; [divide]]
  /\ fst (run late) = inr "done"
  /\ List.map requested (chat_replies (trace (snd (run early))))
     = [[call "call_0" "math_add" "{"; divide]]
  /\ fst (run early) = inl SyntaxError
  /\ fst (run early) <> inl (UnknownToolError "math_divide").
Proof. vm_compute. repeat split; try reflexivity. discriminate. Qed.

(** C5, counterexample: the second model call of a query is made without
    a tool set although the registry holds three descriptors. *)
Lemma second_chat_has_no_tools :
  let o := started asks_once "./mcp.servers.json" in
  let out := processQuery o "what is 2+2" idle in
  List.map qualifiedName (allFunctions o)
  = ["files_read"; "math_add"; "math_read"]
  /\ last (trace (snd out))
     = Some (EvChat (messages (snd out)) None None
               (reply (Some "The answer is 4") None))
  /\ default [] (@None (list ChatCompletionTool)) <> allFunctions o.
Proof. vm_compute. repeat split; try reflexivity. discriminate. Qed.

End Scenarios.

Section RegistryScenarios.
Import Sample.

(** The collision scenario of the specification: two servers list a tool
    with the same native name and get distinct qualified names. *)
Example same_native_name :
  List.map qualifiedName
    (allFunctions (started asks_once "./mcp.servers.json"))
  = ["files_read"; "math_add"; "math_read"].
Proof. vm_compute. reflexivity. Qed.


(** C6, counterexample: [math] is registered, and registering [math]
    again, from a configuration or from a script, returns normally and
    lists its tools a second time. *)
Lemma duplicate_registration_succeeds :
  let o := started asks_once "./math.json" in
  let again := registerServersFromConfig "./math.json" o in
  let script := registerServer "math" "math.py" o in
  is_Some (servers o !! "math")
  /\ List.map qualifiedName (allFunctions o) = ["math_add"; "math_read"]
  /\ fst again = inr tt
  /\ List.map qualifiedName (allFunctions (snd again))
     = ["math_add"; "math_read"; "math_add"; "math_read"]
  /\ fst script = inr tt
  /\ List.map qualifiedName (allFunctions (snd script))
     = ["math_add"; "math_read"; "math_add"; "math_read"].
Proof. vm_compute. repeat split; try reflexivity. eexists; reflexivity. Qed.

(** C3: the server [my_server] is registered with the tool [read], which
    is advertised as [my_server_read]; a call of that name is resolved to
    the server name [my].  Alone, the query fails with an unknown-server
    error; beside a server named [my], the call is sent to that other
    server, which never listed such a tool. *)
Theorem underscore_server_name_is_misresolved :
  let ask := GPT (scripted [reply None (Some [call "c1" "my_server_read" "{}"])]) in
  let alone := started ask "./lonely.json" in
  let beside := started ask "./underscore.json" in
  (is_Some (servers alone !! "my_server")
   /\ List.map qualifiedName (allFunctions alone) = ["my_server_read"]
   /\ fst (processQuery alone "read it" idle) = inl (UnknownServerError "my"))
  /\ (List.map qualifiedName (allFunctions beside)
      = ["my_add"; "my_read"; "my_server_read"]
      /\ List.filter is_call_tool (trace (snd (processQuery beside "read it" idle)))
         = [EvCallTool "my" "server_read" (JObj [])
              (inl (Rejected "Tool not found: server_read"))]).
Proof.
  vm_compute. repeat split; try reflexivity. eexists; reflexivity.
Qed.

(** C7: the backend [w] lists the tool [get.weather], advertised as
    [w_get_weather]; invoking it forwards the name [get_weather], which the
    backend does not know, instead of the native name. *)
Theorem sanitized_tool_name_is_forwarded :
  let ask := GPT (scripted [reply None (Some [call "c1" "w_get_weather" "{}"])]) in
  let o := started ask "./weather.json" in
  (client <$> servers o !! "w") ≫= (fun c =>
      match listTools c with
      | inr tools => Some (List.map nt_name tools)
      | inl _ => None
      end)
  = Some ["get.weather"]
  /\ List.map qualifiedName (allFunctions o) = ["w_get_weather"]
  /\ List.filter is_call_tool (trace (snd (processQuery o "weather?" idle)))
     = [EvCallTool "w" "get_weather" (JObj [])
          (inl (Rejected "Tool not found: get_weather"))]
  /\ fst (processQuery o "weather?" idle)
     = inl (Rejected "Tool not found: get_weather").
Proof. vm_compute. repeat split; reflexivity. Qed.

(** C4: the Anthropic response holds a text block and a tool-use block;
    the Claude adapter returns the text and an empty list of tool calls,
    so the query ends on that text without any backend call. *)
Theorem claude_drops_native_tool_calls :
  let anthropic : Anthropic.Sdk := fun _ _ => inr tool_use_message in
  let o := started (Claude anthropic) "./mcp.servers.json" in
  length (native_tool_uses tool_use_message) = 1
  /\ @chat (Claude anthropic) [] (seed o "what is 2+2")
       (Some (allFunctions o)) (Some auto)
     = reply (Some "Let me add these.") (Some [])
  /\ processQuery o "what is 2+2" idle
     = (inr "Let me add these.",
        {| messages := seed o "what is 2+2";
           trace := [EvChat (seed o "what is 2+2") (Some (allFunctions o))
                       (Some auto)
                       (reply (Some "Let me add these.") (Some []))] |}).
Proof. vm_compute. repeat split; reflexivity. Qed.

End RegistryScenarios.

Section Witnesses.
Import Sample.

Lemma sample_backends_list_distinct_tools info t c tools :
  launch info t = inr c -> listTools c = inr tools -> distinct_tools tools.
Proof.
  unfold launch. cbv zeta.
  set (cmd := if String.eqb (if String.eqb (command t) "python3"
                             then default (command t) (head (args t))
                             else command t) "math.py"
              then "math-server" else _).
  clearbody cmd. unfold catalogue. cbn [List.find fst snd].
  repeat (destruct (String.eqb _ cmd));
    intros Hc Hl; try discriminate Hc;
    injection Hc as <-; injection Hl as <-;
    apply (bool_decide_unpack _); vm_compute; exact I.
Qed.


(** C6, an instance: [math] is registered and is registered again from a configuration. *)
Lemma duplicate_registration_is_accepted_witness :
  let o := started asks_once "./math.json" in
  let t := stdio "math-server" in
  let c := backend "mcp-math" math_tools in
  let o' := bind_server "math" c t
              (List.map (toolDescriptor "math") (List.map fst math_tools)) o in
  servers o !! "math" = Some (binding "math" "math-server" math_tools)
  /\ registerServersFromConfig "./math.json" o = (inr tt, o')
  /\ List.map qualifiedName (allFunctions o')
     = ["math_add"; "math_read"; "math_add"; "math_read"].
Proof.
  intros o t c o'.
  assert (Hold : servers o !! "math"
                 = Some (binding "math" "math-server" math_tools))
    by (vm_compute; reflexivity).
  split; [exact Hold|]. split; [|vm_compute; reflexivity].
  exact (proj1 (proj2 (duplicate_registration_is_accepted
                         o "math" _ c _ t Hold eq_refl eq_refl))
           "./math.json" eq_refl).
Defined.

(** C8, an instance: the response asks for [math_add], which is served, and then for [math_divide], which no server lists. *)
Lemma unknown_tool_aborts_query_witness :
  let divide := call "call_2" "math_divide" "{}" in
  let ask := GPT (scripted [reply None (Some [add22; divide])]) in
  let o := started ask "./mcp.servers.json" in
  let served :=
    [ {| role := assistant; content := None;
         tool_calls := Some [add22]; tool_call_id := None |};
      {| role := tool; content := Some "4";
         tool_calls := None; tool_call_id := Some "call_1" |} ] in
  processQuery o "what is 2+2" idle
  = (inl (UnknownToolError "math_divide"),
     {| messages := seed o "what is 2+2" ++ served;
        trace :=
          [ first_chat o "what is 2+2" (reply None (Some [add22; divide]));
            EvCallTool "math" "add" (JObj [("a", JNum 2); ("b", JNum 2)])
              (inr {| tr_content := Some (JNum 4) |}) ] |})
  /\ length served = 2 * length [add22].
Proof.
  intros divide ask o served.
  refine (proj1 (proj2 (proj2 (proj2
            (unknown_tool_aborts_query o "what is 2+2" idle
               {| choices := [ {| message := Some {| rm_content := None;
                                    rm_tool_calls := Some [add22; divide] |} |} ] |}
               [add22] divide [] eq_refl eq_refl _)))) _ served _).
  - vm_compute. reflexivity.
  - refine (Dispatched_cons o _ add22
              (toolDescriptor "math" (native "add" "Adds a and b"))
              (binding "math" "math-server" math_tools)
              (JObj [("a", JNum 2); ("b", JNum 2)])
              {| tr_content := Some (JNum 4) |} [] [] [] _ _ _ _ _).
    + vm_compute. reflexivity.
    + vm_compute. reflexivity.
    + vm_compute. reflexivity.
    + vm_compute. reflexivity.
    + apply Dispatched_nil.
Defined.


(** C10, an instance: the tool message of the scenario of the specification. *)
Lemma tool_message_content_is_string_witness :
  let o := started asks_once "./mcp.servers.json" in
  let out := processQuery o "what is 2+2" idle in
  let m := {| role := tool; content := Some "4";
              tool_calls := None; tool_call_id := Some "call_1" |} in
  messages (snd out) !! 3 = Some m
  /\ exists server toolName arguments toolResult,
       EvCallTool server toolName arguments (inr toolResult)
         ∈ trace (snd out)
       /\ content m = Some (result_content toolResult).
Proof.
  intros o out m.
  assert (Hm : messages (snd out) !! 3 = Some m) by (vm_compute; reflexivity).
  split; [exact Hm|].
  exact (proj2 (proj2 (proj2
           (tool_message_content_is_string o "what is 2+2" idle))) m
           (proj2 (list_elem_of_lookup _ _) (ex_intro _ 3 Hm)) eq_refl).
Defined.

End Witnesses.

(** * Further properties of the code *)

Section RegistrationRuns.
Context {P : Platform}.

(** Registration sequences keep whatever a single binding keeps. *)
Lemma registration_invariant (I : MCPOrchestrator -> Prop) :
  (forall o n c t tools,
      I o -> connect ("mcp-" +:+ n) t = inr c -> listTools c = inr tools ->
      I (bind_server n c t (List.map (toolDescriptor n) tools) o)) ->
  forall regs o, I o -> I (snd (for_of regs register o)).
Proof.
  intros Hbind.
  assert (Hentry : forall n t o, I o -> I (snd (register_entry n t o))).
  { intros n t o Ho.
    destruct (register_entry_cases n t o)
      as [(c & tools & Hc & Hl & ->)|(e & -> & _)]; cbn [snd]; eauto. }
  assert (Hentries : forall config o,
    I o -> I (snd (for_of config
                     (fun entry => register_entry (fst entry) (snd entry)) o))).
  { induction config as [|[n t] config IH]; intros o Ho; [exact Ho|].
    cbn [for_of fst snd]. unfold bind.
    pose proof (Hentry n t o Ho) as H1.
    destruct (register_entry n t o) as [[e|[]] o1]; cbn [snd] in *; auto. }
  assert (Hreg : forall r o, I o -> I (snd (register r o))).
  { intros [n scriptPath|configPath] o Ho; cbn [register].
    - rewrite registerServer_entry. auto.
    - rewrite registerServersFromConfig_entries.
      destruct (readConfig configPath); cbn [snd]; auto. }
  induction regs as [|r regs IH]; intros o Ho; [exact Ho|].
  cbn [for_of]. unfold bind. pose proof (Hreg r o Ho) as H1.
  destruct (register r o) as [[e|[]] o1]; cbn [snd] in *; auto.
Qed.

Lemma sanitize_all_in_class s : all_in_class (JsString.sanitize s) = true.
Proof.
  induction s as [|c s IH]; [reflexivity|].
  cbn [JsString.sanitize all_in_class]. rewrite IH, andb_true_r.
  destruct (JsString.in_class c) eqn:Hc; [exact Hc|reflexivity].
Qed.

Lemma sanitize_fixes_class s :
  all_in_class s = true -> JsString.sanitize s = s.
Proof.
  induction s as [|c s IH]; [reflexivity|].
  cbn [JsString.sanitize all_in_class]. intros H.
  apply andb_prop in H as [Hc Hs]. rewrite Hc, IH by assumption. reflexivity.
Qed.

Lemma sanitize_length s : String.length (JsString.sanitize s) = String.length s.
Proof. induction s as [|c s IH]; cbn; [reflexivity|now rewrite IH]. Qed.

Lemma append_length a b :
  String.length (a +:+ b) = String.length a + String.length b.
Proof.
  induction a as [|c a IH]; [reflexivity|].
  rewrite append_cons. cbn [String.length]. rewrite IH. reflexivity.
Qed.

(** X1: whatever registrations were run on a new orchestrator, and whether
    or not they succeeded, every advertised tool name consists of letters,
    digits, underscores and hyphens only, sanitizing it again changes
    nothing, and every descriptor has type [function]. *)
Theorem advertised_names_stay_in_charset (regs : list Registration) l prompt f :
  f ∈ allFunctions (snd (for_of regs register (MCPOrchestrator_new l prompt))) ->
  all_in_class (qualifiedName f) = true
  /\ JsString.sanitize (qualifiedName f) = qualifiedName f
  /\ tool_type f = "function".
Proof.
  revert f.
  apply (registration_invariant
           (fun o => forall f, f ∈ allFunctions o ->
              all_in_class (qualifiedName f) = true
              /\ JsString.sanitize (qualifiedName f) = qualifiedName f
              /\ tool_type f = "function")).
  - intros o n c t tools Ho _ _ f Hf. cbn in Hf.
    apply elem_of_app in Hf as [Hf|Hf]; [auto|].
    apply list_elem_of_fmap in Hf as (tl & -> & _).
    unfold qualifiedName, toolDescriptor. cbn [tool_function fd_name tool_type].
    split; [apply sanitize_all_in_class|]. split; [|reflexivity].
    apply sanitize_fixes_class, sanitize_all_in_class.
  - intros f Hf. inversion Hf.
Qed.

(** X2: registration never removes anything: whatever registrations are
    run on an orchestrator, and whether or not they succeed, the flattened
    list keeps its old descriptors in front, in their order, and every
    server name that was bound stays bound. *)
Theorem registration_only_adds (regs : list Registration) o :
  let o' := snd (for_of regs register o) in
  allFunctions o `prefix_of` allFunctions o'
  /\ forall k, is_Some (servers o !! k) -> is_Some (servers o' !! k).
Proof.
  apply (registration_invariant
           (fun o' => allFunctions o `prefix_of` allFunctions o'
                      /\ forall k, is_Some (servers o !! k) ->
                                   is_Some (servers o' !! k))).
  - intros o1 n c t tools [Hpre Hkeys] _ _. split; cbn.
    + destruct Hpre as [more ->]. exists (more ++ List.map (toolDescriptor n) tools).
      now rewrite app_assoc.
    + intros k Hk. destruct (decide (n = k)) as [->|Hne].
      * rewrite lookup_insert_eq. eauto.
      * rewrite lookup_insert_ne by assumption. auto.
  - split; [reflexivity|auto].
Qed.

Lemma bind_server_consistent o n c t tools :
  bindings_consistent o ->
  bindings_consistent (bind_server n c t (List.map (toolDescriptor n) tools) o).
Proof.
  intros Ho k srv. cbn. destruct (decide (n = k)) as [->|Hne].
  - rewrite lookup_insert_eq. intros [= <-]. cbn. split; [reflexivity|].
    intros f Hf. apply elem_of_app. auto.
  - rewrite lookup_insert_ne by assumption. intros Hk.
    destruct (Ho k srv Hk) as [Hname Hfs]. split; [assumption|].
    intros f Hf. apply elem_of_app. auto.
Qed.

(** X3: in an orchestrator built by registrations, every binding of the
    server map is stored under its own name, and each of its descriptors is
    in the flattened list the model is given. *)
Theorem registry_bindings_consistent (regs : list Registration) l prompt :
  bindings_consistent
    (snd (for_of regs register (MCPOrchestrator_new l prompt))).
Proof.
  apply (registration_invariant bindings_consistent).
  - intros o n c t tools Ho _ _. apply bind_server_consistent. exact Ho.
  - intros k srv Hk. cbn in Hk. rewrite lookup_empty in Hk. discriminate.
Qed.

Lemma entries_progress config : forall o,
  let out := for_of config
               (fun entry => register_entry (fst entry) (snd entry)) o in
  exists done rest,
    config = done ++ rest
    /\ forallb starts done = true
    /\ allFunctions (snd out) = allFunctions o ++ flat_map listed done
    /\ (forall k, is_Some (servers (snd out) !! k)
                  <-> is_Some (servers o !! k) \/ k ∈ List.map fst done)
    /\ match rest with
       | [] => fst out = inr tt
       | failed :: _ =>
           exists e, startup_error failed = Some e /\ fst out = inl e
       end.
Proof.
  induction config as [|[n t] config IH]; intros o; cbv zeta.
  - exists [], []. cbn. rewrite app_nil_r. repeat split; auto.
    + intros [H|H]; [exact H|inversion H].
  - cbn [for_of fst snd]. unfold bind.
    destruct (register_entry_cases n t o)
      as [(c & tools & Hc & Hl & ->)|(e & -> & He)].
    + destruct (IH (bind_server n c t (List.map (toolDescriptor n) tools) o))
        as (done & rest & -> & Hst & Hfs & Hkeys & Hend).
      exists ((n, t) :: done), rest. split; [reflexivity|].
      split; [cbn [forallb]; unfold starts at 1; cbn [fst snd];
              rewrite Hc, Hl; exact Hst|].
      split; [rewrite Hfs; cbn [flat_map allFunctions bind_server];
              unfold listed at 2; cbn [fst snd]; rewrite Hc, Hl;
              now rewrite <- app_assoc|].
      split; [|exact Hend].
      intros k. rewrite Hkeys. cbn [servers bind_server List.map fst].
      destruct (decide (n = k)) as [->|Hne].
      * rewrite lookup_insert_eq. split; [intros _; right; left|eauto].
      * rewrite lookup_insert_ne by assumption.
        split; [intros [H|H]; [auto|right; right; exact H]|].
        intros [H|H]; [auto|].
        apply elem_of_cons in H as [->|H]; [contradiction|auto].
    + exists [], ((n, t) :: config). cbn. rewrite app_nil_r.
      split; [reflexivity|]. split; [reflexivity|]. split; [reflexivity|].
      split; [intros k; split; [auto|intros [H|H]; [exact H|inversion H]]|].
      exists e. split; [|reflexivity].
      unfold startup_error. cbn [fst snd].
      destruct He as [->|(c & -> & ->)]; reflexivity.
Qed.

(** X4: [registerServersFromConfig] registers the entries of the
    configuration in order and stops at the first backend that fails to
    connect or to list its tools.  The entries before it stay registered,
    their descriptors appended in configuration order; the failing entry
    and the ones after it add nothing; the call fails with that backend's
    error, and succeeds when no entry fails. *)
Theorem registerServersFromConfig_progress configPath config o :
  readConfig configPath = inr config ->
  let out := registerServersFromConfig configPath o in
  exists done rest,
    config = done ++ rest
    /\ forallb starts done = true
    /\ allFunctions (snd out) = allFunctions o ++ flat_map listed done
    /\ (forall k, is_Some (servers (snd out) !! k)
                  <-> is_Some (servers o !! k) \/ k ∈ List.map fst done)
    /\ match rest with
       | [] => fst out = inr tt
       | failed :: _ =>
           exists e, startup_error failed = Some e /\ fst out = inl e
       end.
Proof.
  intros Hcfg. cbv zeta.
  rewrite registerServersFromConfig_entries, Hcfg. apply entries_progress.
Qed.

(** X5: a failing [registerServer] leaves the orchestrator as it was, and
    it fails exactly when the backend does not connect or does not list its
    tools, with that error; an unreadable configuration likewise leaves the
    orchestrator as it was. *)
Theorem failed_registration_changes_nothing n scriptPath configPath o :
  (forall e o',
      registerServer n scriptPath o = (inl e, o') ->
      o' = o /\ startup_error (n, script_transport scriptPath) = Some e)
  /\ (forall e,
        startup_error (n, script_transport scriptPath) = Some e ->
        registerServer n scriptPath o = (inl e, o))
  /\ (forall e,
        readConfig configPath = inl e ->
        registerServersFromConfig configPath o = (inl e, o)).
Proof.
  rewrite registerServer_entry. unfold startup_error. cbn [fst snd].
  split; [|split].
  - intros e o' Hrun.
    destruct (register_entry_cases n (script_transport scriptPath) o)
      as [(c & tools & Hc & Hl & Heq)|(e' & Heq & He)];
      rewrite Heq in Hrun; [discriminate|].
    injection Hrun as <- <-. split; [reflexivity|].
    destruct He as [->|(c & -> & ->)]; reflexivity.
  - intros e He. unfold register_entry, bind, await, modify.
    destruct (connect _ _) as [e'|c]; [congruence|].
    destruct (listTools c) as [e'|tools]; [congruence|discriminate].
  - intros e He. rewrite registerServersFromConfig_entries, He. reflexivity.
Qed.

End RegistrationRuns.

Section QueryRuns.
Context {P : Platform}.
Variable o : MCPOrchestrator.

(** The loop stops at the first call that fails, in the state that call
    leaves. *)
Lemma processQuery_fails_at query st result served toolCall rest evs msgs e st3 :
  @chat (llm o) (trace st) (seed o query) (Some (allFunctions o)) (Some auto)
  = inr result ->
  requested result = served ++ toolCall :: rest ->
  Dispatched o (trace st ++ [first_chat o query (inr result)]) served evs msgs ->
  dispatch o toolCall
    {| messages := seed o query ++ msgs;
       trace := (trace st ++ [first_chat o query (inr result)]) ++ evs |}
  = (inl e, st3) ->
  processQuery o query st = (inl e, st3).
Proof.
  intros Hchat Hreq HD Hfail.
  rewrite processQuery_unfold. cbv zeta. rewrite Hchat.
  destruct (served ++ toolCall :: rest) as [|tc calls] eqn:Hcalls;
    [destruct served; discriminate|].
  destruct (requested_cons _ _ _ Hreq) as (response & cs & -> & ->).
  rewrite <- Hcalls, for_of_app.
  rewrite (Dispatched_for_of o served _ evs msgs _ HD) by reflexivity.
  cbn [for_of messages trace after_first_chat]. unfold bind at 1.
  rewrite Hfail. reflexivity.
Qed.

(** X6: a response without tool calls, whether the list is absent or
    empty, ends the query after this one model call: the answer is the
    response's content, or the empty string when the content is null; the
    history is the two seed messages and no backend is called. *)
Theorem answer_without_tool_calls query st m cs :
  @chat (llm o) (trace st) (seed o query) (Some (allFunctions o)) (Some auto)
  = inr {| choices := {| message := Some m |} :: cs |} ->
  rm_tool_calls m = None \/ rm_tool_calls m = Some [] ->
  processQuery o query st
  = (inr (match rm_content m with Some text => text | None => EmptyString end),
     {| messages := seed o query;
        trace := trace st
                   ++ [EvChat (seed o query) (Some (allFunctions o)) (Some auto)
                         (inr {| choices := {| message := Some m |} :: cs |})] |}).
Proof.
  intros Hchat Hnone. rewrite processQuery_unfold. cbv zeta. rewrite Hchat.
  cbn [choices]. destruct Hnone as [->| ->]; reflexivity.
Qed.

(** X7: when every tool call of the first response is served, the model is
    called once more with the seed and the pairs of all calls, and what that
    call gives is the outcome of the query: its failure, a [TypeError] when
    it has no choice, and otherwise the content of its first choice, the
    empty string when the message or its content is absent.  The backend
    calls have been made in every case. *)
Theorem answer_after_tool_round query st result toolCall calls evs msgs :
  @chat (llm o) (trace st) (seed o query) (Some (allFunctions o)) (Some auto)
  = inr result ->
  requested result = toolCall :: calls ->
  Dispatched o (trace st ++ [first_chat o query (inr result)])
    (toolCall :: calls) evs msgs ->
  let history := seed o query ++ msgs in
  let before := (trace st ++ [first_chat o query (inr result)]) ++ evs in
  let r2 := @chat (llm o) before history None None in
  processQuery o query st
  = (match r2 with
     | inl e => inl e
     | inr {| choices := [] |} => inl TypeError
     | inr {| choices := {| message := None |} :: _ |} => inr EmptyString
     | inr {| choices := {| message := Some final |} :: _ |} =>
         inr (match rm_content final with
              | Some text => text
              | None => EmptyString
              end)
     end,
     {| messages := history;
        trace := before ++ [EvChat history None None r2] |}).
Proof.
  intros Hchat Hreq HD. cbv zeta.
  rewrite processQuery_unfold. cbv zeta. rewrite Hchat.
  destruct (requested_cons _ _ _ Hreq) as (response & cs & -> & ->).
  rewrite (Dispatched_for_of o _ _ evs msgs _ HD) by reflexivity.
  cbn [messages trace after_first_chat].
  destruct (chat _ (seed o query ++ msgs) None None)
    as [e|[[|[[final|]] more]]]; reflexivity.
Qed.

(** X8: a tool call whose advertised name is in the registry but whose
    prefix before the first underscore is not a registered server fails the
    query with the unknown-server error naming that prefix, whatever its
    arguments are: they are not parsed, no backend is called for it, nothing
    is pushed for it and no further model call is made. *)
Theorem unknown_server_aborts_query
    query st result served toolCall rest evs msgs toolMeta :
  @chat (llm o) (trace st) (seed o query) (Some (allFunctions o)) (Some auto)
  = inr result ->
  requested result = served ++ toolCall :: rest ->
  Dispatched o (trace st ++ [first_chat o query (inr result)]) served evs msgs ->
  List.find (has_name (fc_name (tc_function toolCall))) (allFunctions o)
  = Some toolMeta ->
  servers o !! JsString.split_head (qualifiedName toolMeta) = None ->
  processQuery o query st
  = (inl (UnknownServerError (JsString.split_head (qualifiedName toolMeta))),
     {| messages := seed o query ++ msgs;
        trace := trace st ++ first_chat o query (inr result) :: evs |}).
Proof.
  intros Hchat Hreq HD Hfind Hsrv.
  eapply processQuery_fails_at; eauto.
  unfold dispatch, bind. rewrite Hfind. cbn.
  unfold qualifiedName in Hsrv. rewrite Hsrv. cbn.
  rewrite <- app_assoc. reflexivity.
Qed.

(** X9: a tool call that resolves to a server but whose arguments are not
    parseable fails the query with a [SyntaxError]: no backend is called for
    it, nothing is pushed for it, the calls after it are not attempted and
    no further model call is made. *)
Theorem malformed_arguments_abort_query
    query st result served toolCall rest evs msgs toolMeta server :
  @chat (llm o) (trace st) (seed o query) (Some (allFunctions o)) (Some auto)
  = inr result ->
  requested result = served ++ toolCall :: rest ->
  Dispatched o (trace st ++ [first_chat o query (inr result)]) served evs msgs ->
  List.find (has_name (fc_name (tc_function toolCall))) (allFunctions o)
  = Some toolMeta ->
  servers o !! JsString.split_head (qualifiedName toolMeta) = Some server ->
  JSON_parse (fc_arguments (tc_function toolCall)) = None ->
  processQuery o query st
  = (inl SyntaxError,
     {| messages := seed o query ++ msgs;
        trace := trace st ++ first_chat o query (inr result) :: evs |}).
Proof.
  intros Hchat Hreq HD Hfind Hsrv Hparse.
  eapply processQuery_fails_at; eauto.
  unfold dispatch, bind. rewrite Hfind. cbn.
  unfold qualifiedName in Hsrv. rewrite Hsrv. cbn. rewrite Hparse. cbn.
  rewrite <- app_assoc. reflexivity.
Qed.

(** X10: when the backend rejects a tool call, the query fails with that
    rejection.  The rejected call is the last thing done: nothing is pushed
    for it, the calls after it are not attempted and the model is not
    called again; the pairs of the calls served before it stay in the
    history. *)
Theorem backend_rejection_aborts_query
    query st result served toolCall rest evs msgs toolMeta server arguments e :
  @chat (llm o) (trace st) (seed o query) (Some (allFunctions o)) (Some auto)
  = inr result ->
  requested result = served ++ toolCall :: rest ->
  Dispatched o (trace st ++ [first_chat o query (inr result)]) served evs msgs ->
  List.find (has_name (fc_name (tc_function toolCall))) (allFunctions o)
  = Some toolMeta ->
  servers o !! JsString.split_head (qualifiedName toolMeta) = Some server ->
  JSON_parse (fc_arguments (tc_function toolCall)) = Some arguments ->
  let toolName :=
    JsString.replace (JsString.split_head (qualifiedName toolMeta) +:+ "_")
      EmptyString (qualifiedName toolMeta) in
  callTool (client server)
    ((trace st ++ [first_chat o query (inr result)]) ++ evs) toolName arguments
  = inl e ->
  processQuery o query st
  = (inl e,
     {| messages := seed o query ++ msgs;
        trace := trace st ++ first_chat o query (inr result)
                   :: evs ++ [EvCallTool (name server) toolName arguments (inl e)] |}).
Proof.
  intros Hchat Hreq HD Hfind Hsrv Hparse toolName Hcall. subst toolName.
  eapply processQuery_fails_at; eauto.
  unfold dispatch, bind. rewrite Hfind. cbn.
  unfold qualifiedName in *. rewrite Hsrv. cbn.
  rewrite Hparse. cbn. unfold client_callTool. cbn [messages trace].
  rewrite Hcall. cbn. rewrite <- !app_assoc. reflexivity.
Qed.

Lemma find_has_name f (l : list ChatCompletionTool) :
  f ∈ l ->
  exists toolMeta,
    List.find (has_name (qualifiedName f)) l = Some toolMeta
    /\ qualifiedName toolMeta = qualifiedName f.
Proof.
  induction l as [|g l IH]; intros Hf; [inversion Hf|].
  cbn [List.find]. destruct (has_name (qualifiedName f) g) eqn:Hg.
  - exists g. split; [reflexivity|]. apply String.eqb_eq. exact Hg.
  - apply elem_of_cons in Hf as [->|Hf]; [|auto].
    unfold has_name, qualifiedName in Hg. rewrite String.eqb_refl in Hg.
    discriminate.
Qed.

(** X11: for a server whose name is made of letters, digits and hyphens and
    a tool whose native name is already in the sanitizer's class, a call of
    the tool's advertised name reaches the backend bound under that server
    name, with the native tool name and the parsed arguments; the call's
    outcome is the backend's, and a result is pushed as the pair of the
    call. *)
Theorem dispatch_reaches_owner n t server toolCall arguments st :
  identifier_safe n = true ->
  all_in_class (nt_name t) = true ->
  toolDescriptor n t ∈ allFunctions o ->
  servers o !! n = Some server ->
  fc_name (tc_function toolCall) = qualifiedName (toolDescriptor n t) ->
  JSON_parse (fc_arguments (tc_function toolCall)) = Some arguments ->
  let r := callTool (client server) (trace st) (nt_name t) arguments in
  dispatch o toolCall st
  = (match r with inl e => inl e | inr _ => inr tt end,
     {| messages :=
          match r with
          | inl _ => messages st
          | inr toolResult =>
              messages st
                ++ [ {| role := assistant; content := None;
                        tool_calls := Some [toolCall]; tool_call_id := None |};
                     {| role := tool;
                        content := Some (result_content toolResult);
                        tool_calls := None;
                        tool_call_id := Some (tc_id toolCall) |} ]
          end;
        trace := trace st ++ [EvCallTool (name server) (nt_name t) arguments r] |}).
Proof.
  intros Hsafe Hclass Hin Hsrv Hname Hparse r. subst r.
  destruct (find_has_name _ _ Hin) as (toolMeta & Hfind & Hqn).
  destruct (resolution_of_safe_names n t Hsafe) as [Hhead Htool].
  cbv zeta in Hhead, Htool. rewrite sanitize_fixes_class in Htool by assumption.
  unfold dispatch, bind. rewrite Hname, Hfind. cbn.
  unfold qualifiedName in Hqn, Hhead, Htool.
  rewrite Hqn, Htool, Hhead, Hsrv. cbn. rewrite Hparse. cbn.
  unfold client_callTool. cbn [messages trace].
  destruct (callTool (client server) (trace st) (nt_name t) arguments);
    reflexivity.
Qed.

(** X12: a query does not see the messages of an earlier one: whatever
    message array is around when it starts, the run is the same; its history
    always begins with the system prompt and the query, and the events of
    the past are kept in front of the new ones. *)
Theorem query_starts_fresh query st old :
  processQuery o query {| messages := old; trace := trace st |}
  = processQuery o query st
  /\ take 2 (messages (snd (processQuery o query st))) = seed o query
  /\ trace st `prefix_of` trace (snd (processQuery o query st)).
Proof.
  split; [rewrite !processQuery_unfold; reflexivity|].
  destruct (processQuery_history o query st)
    as (r1 & served & evs & msgs & more & _ & Hm & Ht).
  rewrite Hm, Ht. split; [reflexivity|]. eexists. reflexivity.
Qed.

End QueryRuns.

Section Adapters.
Context {P : Platform}.

(** X13: with the Claude adapter a query is one model call and nothing
    else: no backend is ever called and the history stays the two seed
    messages.  The provider is sent the seed, with the system prompt also in
    the [system] field, and all descriptors; its failure is the query's
    failure, and otherwise the answer is the text of the first text block of
    its response, the empty string when there is none. *)
Theorem claude_query_is_one_model_call o anthropic query st :
  llm o = Claude anthropic ->
  let r := anthropic (trace st)
             {| Anthropic.model := "claude-3-opus-20240229";
                Anthropic.messages := seed o query;
                Anthropic.system := Some (systemPrompt o);
                Anthropic.tools := allFunctions o;
                Anthropic.max_tokens := 1024 |} in
  processQuery o query st
  = (match r with inl e => inl e | inr res => inr (first_text res) end,
     {| messages := seed o query;
        trace :=
          trace st
            ++ [EvChat (seed o query) (Some (allFunctions o)) (Some auto)
                  (match r with
                   | inl e => inl e
                   | inr res =>
                       inr {| choices :=
                                [ {| message :=
                                       Some {| rm_content := Some (first_text res);
                                               rm_tool_calls := Some [] |} |} ] |}
                   end)] |}).
Proof.
  intros Hllm r. subst r.
  rewrite processQuery_unfold. cbv zeta. rewrite Hllm.
  unfold after_first_chat, first_chat.
  change (@chat (Claude anthropic)) with (Anthropic.chat anthropic).
  unfold Anthropic.chat. cbn [default system_content seed List.find is_system
                              role mbind option_bind content].
  destruct (anthropic _ _) as [e|res]; reflexivity.
Qed.

(** X14: the content [Claude.chat] returns is the text of the first block
    of the native response that has type [text] and a string as text;
    blocks before it that are of another type, or whose text is not a
    string, are passed over, and the blocks after it are not looked at.
    Whatever the blocks are, no tool call is returned. *)
Theorem claude_content_is_first_text_block
    anthropic h msgs tls choice res before block after s :
  anthropic h {| Anthropic.model := "claude-3-opus-20240229";
                 Anthropic.messages := msgs;
                 Anthropic.system := system_content msgs;
                 Anthropic.tools := default [] tls;
                 Anthropic.max_tokens := 1024 |}
  = inr res ->
  Anthropic.content res = before ++ block :: after ->
  Forall (fun b => Anthropic.type b <> "text"
                   \/ forall t, Anthropic.text b <> Some (JStr t)) before ->
  Anthropic.type block = "text" ->
  Anthropic.text block = Some (JStr s) ->
  Anthropic.chat anthropic h msgs tls choice
  = inr {| choices :=
             [ {| message := Some {| rm_content := Some s;
                                     rm_tool_calls := Some [] |} |} ] |}.
Proof.
  intros Hres Hcontent Hbefore Htype Htext.
  unfold Anthropic.chat. cbv zeta. rewrite Hres, Hcontent.
  assert (Hfind : List.find Anthropic.isTextBlock (before ++ block :: after)
                  = Some block).
  { clear Hcontent. induction Hbefore as [|b before Hb _ IH]; cbn [app List.find].
    - unfold Anthropic.isTextBlock. rewrite Htype, Htext. reflexivity.
    - replace (Anthropic.isTextBlock b) with false; [exact IH|].
      symmetry. unfold Anthropic.isTextBlock.
      destruct (String.eqb (Anthropic.type b) "text") eqn:Ht; [|reflexivity].
      apply String.eqb_eq in Ht. destruct Hb as [Hb|Hb]; [contradiction|].
      destruct (Anthropic.text b) as [[]|]; try reflexivity.
      destruct (Hb _ eq_refl). }
  rewrite Hfind. cbn. unfold Anthropic.text_of. rewrite Htext. reflexivity.
Qed.

(** X15: a native response without any text block, for instance one made
    of tool-use blocks only, becomes the empty answer with no tool call. *)
Theorem claude_without_text_block_is_empty anthropic h msgs tls choice res :
  anthropic h {| Anthropic.model := "claude-3-opus-20240229";
                 Anthropic.messages := msgs;
                 Anthropic.system := system_content msgs;
                 Anthropic.tools := default [] tls;
                 Anthropic.max_tokens := 1024 |}
  = inr res ->
  Forall (fun b => Anthropic.type b <> "text") (Anthropic.content res) ->
  Anthropic.chat anthropic h msgs tls choice
  = inr {| choices :=
             [ {| message := Some {| rm_content := Some EmptyString;
                                     rm_tool_calls := Some [] |} |} ] |}.
Proof.
  intros Hres Hnone. unfold Anthropic.chat. cbv zeta. rewrite Hres.
  assert (Hfind : List.find Anthropic.isTextBlock (Anthropic.content res) = None).
  { induction Hnone as [|b bs Hb _ IH]; [reflexivity|]. cbn [List.find].
    unfold Anthropic.isTextBlock at 1.
    destruct (String.eqb (Anthropic.type b) "text") eqn:Ht; [|exact IH].
    apply String.eqb_eq in Ht. contradiction. }
  rewrite Hfind. reflexivity.
Qed.

(** The older orchestrator is the current one run with an [LLM] that hands
    its arguments to the client unchanged. *)
Lemma legacy_processQuery_direct openai o query st :
  Legacy.processQuery openai o query st
  = processQuery
      {| llm := OpenAIApi.direct openai;
         systemPrompt := Legacy.SYSTEM_PROMPT;
         servers := servers o;
         servers_order := servers_order o;
         allFunctions := allFunctions o |} query st.
Proof. reflexivity. Qed.

(** X16: the older orchestrator, which calls the OpenAI client itself, and
    the current one run with the GPT adapter on the same client and the
    older system prompt give the same run for every query, provided the
    provider answers a request without [tools] and [tool_choice] as it
    answers one with an empty tool list and [auto]: the final request is
    the only place where the two versions differ. *)
Theorem legacy_agrees_with_gpt_adapter openai o query st :
  (forall h msgs,
      openai h {| OpenAIApi.model := "gpt-4-1106-preview";
                  OpenAIApi.messages := msgs;
                  OpenAIApi.tools := None;
                  OpenAIApi.tool_choice := None |}
      = openai h {| OpenAIApi.model := "gpt-4-1106-preview";
                    OpenAIApi.messages := msgs;
                    OpenAIApi.tools := Some [];
                    OpenAIApi.tool_choice := Some auto |}) ->
  llm o = GPT (OpenAIApi.as_gpt openai) ->
  systemPrompt o = Legacy.SYSTEM_PROMPT ->
  Legacy.processQuery openai o query st = processQuery o query st.
Proof.
  intros Hsame Hllm Hprompt. destruct o as [l prompt srv ord fs].
  cbn [llm systemPrompt] in Hllm, Hprompt. subst l prompt.
  rewrite legacy_processQuery_direct. cbn [servers servers_order allFunctions].
  rewrite !processQuery_unfold. cbv zeta.
  cbn [llm allFunctions servers systemPrompt].
  change (@chat (OpenAIApi.direct openai)) with
    (fun h msgs tls choice =>
       openai h {| OpenAIApi.model := "gpt-4-1106-preview";
                   OpenAIApi.messages := msgs;
                   OpenAIApi.tools := tls;
                   OpenAIApi.tool_choice := choice |}).
  change (@chat (GPT (OpenAIApi.as_gpt openai))) with
    (fun h msgs (tls : option (list ChatCompletionTool))
         (choice : option ToolChoice) =>
       openai h {| OpenAIApi.model := "gpt-4-1106-preview";
                   OpenAIApi.messages := msgs;
                   OpenAIApi.tools := Some (default [] tls);
                   OpenAIApi.tool_choice := Some (default auto choice) |}).
  cbn beta. cbn [default].
  destruct (openai _ _) as [e|result]; [reflexivity|].
  destruct (choices result) as [|[[response|]] ?]; try reflexivity.
  destruct (rm_tool_calls response) as [[|tc calls]|]; try reflexivity.
  change (dispatch {| llm := OpenAIApi.direct openai;
                      systemPrompt := Legacy.SYSTEM_PROMPT;
                      servers := srv; servers_order := ord;
                      allFunctions := fs |})
    with (dispatch {| llm := GPT (OpenAIApi.as_gpt openai);
                      systemPrompt := Legacy.SYSTEM_PROMPT;
                      servers := srv; servers_order := ord;
                      allFunctions := fs |}).
  change (after_first_chat
            {| llm := OpenAIApi.direct openai;
               systemPrompt := Legacy.SYSTEM_PROMPT;
               servers := srv; servers_order := ord;
                      allFunctions := fs |})
    with (after_first_chat
            {| llm := GPT (OpenAIApi.as_gpt openai);
               systemPrompt := Legacy.SYSTEM_PROMPT;
               servers := srv; servers_order := ord;
                      allFunctions := fs |}).
  destruct (for_of (tc :: calls) _ _) as [[e|[]] st2]; [reflexivity|].
  rewrite Hsame. reflexivity.
Qed.

End Adapters.

Section ProgramRuns.
Context {P : Platform} {H : Host}.

Lemma filled_spec v prompt :
  filled v = Some prompt ->
  v = Some (JStr prompt) /\ JsText.trim prompt <> EmptyString.
Proof.
  unfold filled. destruct v as [[]|]; try discriminate.
  destruct (JsText.trim s) eqn:Ht; [discriminate|].
  intros [= <-]. rewrite Ht. split; [reflexivity|discriminate].
Qed.

Lemma is_text_spec v text : is_text v text = true -> v = Some (JStr text).
Proof.
  unfold is_text. destruct v as [[]|]; try discriminate.
  intros Heq. apply String.eqb_eq in Heq. now subst.
Qed.

Lemma checked_provider parsed cfg :
  checked parsed = inr cfg ->
  exists key,
    key <> EmptyString
    /\ ((JsText.property "llm" parsed = Some (JStr "claude")
         /\ process_env "CLAUDE_API_KEY" = Some key
         /\ lc_llm cfg = Claude (new_Anthropic key))
        \/ (JsText.property "llm" parsed = Some (JStr "gpt")
            /\ process_env "OPENAI_API_KEY" = Some key
            /\ lc_llm cfg = GPT (OpenAIApi.as_gpt (new_OpenAI key)))).
Proof.
  unfold checked. cbv zeta. intros Hchecked.
  match type of Hchecked with
  | match ?chosen with _ => _ end = _ =>
      destruct chosen as [e|l] eqn:Hchosen; [discriminate|]
  end.
  destruct (filled (JsText.property "systemPrompt" parsed)); [|discriminate].
  destruct (filled (JsText.property "serverConfig" parsed)); [|discriminate].
  injection Hchecked as <-. cbn [lc_llm].
  destruct (is_text _ "claude") eqn:Hc.
  - apply is_text_spec in Hc.
    destruct (process_env "CLAUDE_API_KEY") as [[|c key]|]; try discriminate.
    injection Hchosen as <-. exists (String c key).
    split; [discriminate|]. left. auto.
  - destruct (is_text _ "gpt") eqn:Hg; [|discriminate].
    apply is_text_spec in Hg.
    destruct (process_env "OPENAI_API_KEY") as [[|c key]|]; try discriminate.
    injection Hchosen as <-. exists (String c key).
    split; [discriminate|]. right. auto.
Qed.

Lemma loadConfig_checked cfg :
  loadConfig = inr cfg ->
  exists content parsed,
    fs_readFile "./mcp.llm.json" = inr content
    /\ JSON_parse content = Some parsed
    /\ checked parsed = inr cfg.
Proof.
  intros Hrun. unfold loadConfig in Hrun.
  destruct (fs_readFile "./mcp.llm.json") as [e|content] eqn:Hfile;
    [discriminate|].
  destruct (JSON_parse content) as [parsed|] eqn:Hparse; [|discriminate].
  exists content, parsed. split; [reflexivity|]. split; [assumption|].
  destruct parsed; (discriminate || exact Hrun).
Qed.

(** X17: what [loadConfig] returns is what the file [mcp.llm.json] says: the
    system prompt and the server configuration path are the strings of the
    parsed file, unchanged, and each has more than white space in it; the
    provider is the Claude adapter on [CLAUDE_API_KEY] when [llm] is
    [claude] and the GPT adapter on [OPENAI_API_KEY] when it is [gpt], the
    key being set and not empty. *)
Theorem loadConfig_returns_checked_fields cfg :
  loadConfig = inr cfg ->
  exists content parsed,
    fs_readFile "./mcp.llm.json" = inr content
    /\ JSON_parse content = Some parsed
    /\ JsText.property "systemPrompt" parsed = Some (JStr (lc_systemPrompt cfg))
    /\ JsText.trim (lc_systemPrompt cfg) <> EmptyString
    /\ JsText.property "serverConfig" parsed = Some (JStr (lc_serverConfig cfg))
    /\ JsText.trim (lc_serverConfig cfg) <> EmptyString
    /\ exists key,
         key <> EmptyString
         /\ ((JsText.property "llm" parsed = Some (JStr "claude")
              /\ process_env "CLAUDE_API_KEY" = Some key
              /\ lc_llm cfg = Claude (new_Anthropic key))
             \/ (JsText.property "llm" parsed = Some (JStr "gpt")
                 /\ process_env "OPENAI_API_KEY" = Some key
                 /\ lc_llm cfg = GPT (OpenAIApi.as_gpt (new_OpenAI key)))).
Proof.
  intros Hrun.
  destruct (loadConfig_checked cfg Hrun) as (content & parsed & Hf & Hp & Hc).
  exists content, parsed. split; [assumption|]. split; [assumption|].
  pose proof (checked_provider parsed cfg Hc) as Hprovider.
  unfold checked in Hc. cbv zeta in Hc.
  match type of Hc with
  | match ?chosen with _ => _ end = _ =>
      destruct chosen as [e|l]; [discriminate|]
  end.
  destruct (filled (JsText.property "systemPrompt" parsed)) as [prompt|] eqn:Hsp;
    [|discriminate].
  destruct (filled (JsText.property "serverConfig" parsed)) as [path|] eqn:Hsc;
    [|discriminate].
  injection Hc as <-. cbn [lc_llm lc_systemPrompt lc_serverConfig] in *.
  apply filled_spec in Hsp as [Hp1 Hp2]. apply filled_spec in Hsc as [Hs1 Hs2].
  repeat (split; [assumption|]). exact Hprovider.
Qed.

(** X18: the module refuses to start without [OPENAI_API_KEY] whatever the
    configuration is: a configuration that [loadConfig] accepts while that
    key is unset or empty is one for the Claude adapter, and the program
    still ends at its first statement with the missing-key error, before
    any file is read or server started. *)
Theorem claude_still_needs_openai_key cfg inputs s :
  loadConfig = inr cfg ->
  JsText.truthy (process_env "OPENAI_API_KEY") = false ->
  (exists key,
      process_env "CLAUDE_API_KEY" = Some key
      /\ lc_llm cfg = Claude (new_Anthropic key))
  /\ index inputs s = (Unhandled (JsError "OPENAI_API_KEY is not set"), s).
Proof.
  intros Hrun Hkey. split.
  - destruct (loadConfig_checked cfg Hrun) as (content & parsed & _ & _ & Hc).
    destruct (checked_provider parsed cfg Hc)
      as (key & Hne & [(_ & Henv & Hl)|(_ & Henv & _)]); [eauto|].
    rewrite Henv in Hkey. destruct key; [contradiction|discriminate].
  - unfold index. rewrite Hkey. reflexivity.
Qed.

Lemma close_all (values : list MCPServer) done :
  Forall (fun srv => client_close (client srv) = inr tt) values ->
  for_of values
    (fun server acc => (client_close (client server), acc ++ [client server]))
    done
  = (inr tt, done ++ List.map client values).
Proof.
  intros Hok. revert done.
  induction Hok as [|srv values Hsrv _ IH]; intros done; cbn [for_of List.map].
  - unfold ret. now rewrite app_nil_r.
  - unfold bind. rewrite Hsrv, IH, <- app_assoc. reflexivity.
Qed.

Lemma bind_server_order_ok o n c t fs :
  servers_order_ok o -> servers_order_ok (bind_server n c t fs o).
Proof.
  intros [Hnd Hkeys]. unfold servers_order_ok. cbn [servers servers_order bind_server].
  destruct (servers o !! n) as [old|] eqn:Hn.
  - split; [exact Hnd|]. intros key. rewrite Hkeys.
    destruct (decide (n = key)) as [<-|Hne].
    + rewrite lookup_insert_eq, Hn. split; eauto.
    + rewrite lookup_insert_ne by assumption. reflexivity.
  - assert (Hnew : n ∉ servers_order o).
    { intros Hin. apply Hkeys in Hin as [x Hx]. congruence. }
    split.
    + apply NoDup_app. split; [exact Hnd|]. split; [|apply NoDup_singleton].
      intros x Hx Hx'. apply list_elem_of_singleton in Hx' as ->. contradiction.
    + intros key. rewrite elem_of_app, list_elem_of_singleton, Hkeys.
      destruct (decide (n = key)) as [<-|Hne].
      * rewrite lookup_insert_eq. split; eauto.
      * rewrite lookup_insert_ne by assumption.
        split; [intros [Hk|Hk]; [exact Hk|congruence]|auto].
Qed.

Lemma registered_order_ok regs l prompt :
  servers_order_ok (snd (for_of regs register (MCPOrchestrator_new l prompt))).
Proof.
  apply (registration_invariant servers_order_ok).
  - intros o n c t tools Ho _ _. apply bind_server_order_ok. exact Ho.
  - split; [constructor|]. intros key. cbn. rewrite lookup_empty.
    split; [intros Hin; inversion Hin|intros [x Hx]; discriminate].
Qed.

Lemma from_config_is_registration configPath o :
  snd (registerServersFromConfig configPath o)
  = snd (for_of [ViaConfig configPath] register o).
Proof.
  cbn [for_of register]. unfold bind.
  destruct (registerServersFromConfig configPath o) as [[e|[]] o1]; reflexivity.
Qed.

(** The values of the [Map] are its bindings, in the order of its keys. *)
Lemma servers_values_bindings o :
  servers_order_ok o -> bindings_consistent o ->
  (forall key srv, servers o !! key = Some srv -> srv ∈ servers_values o)
  /\ List.map name (servers_values o) = servers_order o.
Proof.
  intros [_ Hkeys] Hown. unfold servers_values. split.
  - intros key srv Hsrv. apply list_elem_of_omap. exists key.
    split; [|exact Hsrv]. apply Hkeys. eauto.
  - assert (Hall : forall key, key ∈ servers_order o -> is_Some (servers o !! key))
      by (intros key; apply Hkeys).
    revert Hall. generalize (servers_order o).
    induction l as [|key keys IH]; intros Hall; [reflexivity|].
    destruct (Hall key) as [srv Hsrv]; [left|].
    cbn [omap list_omap]. rewrite Hsrv. cbn [List.map].
    destruct (Hown key srv Hsrv) as [-> _]. f_equal.
    apply IH. intros k Hk. apply Hall. right. exact Hk.
Qed.

(** Keys that are all new are set in the order of the configuration. *)
Lemma entries_order config : forall o o',
  NoDup (List.map fst config) ->
  (forall n, n ∈ List.map fst config -> servers o !! n = None) ->
  for_of config (fun entry => register_entry (fst entry) (snd entry)) o
  = (inr tt, o') ->
  servers_order o' = servers_order o ++ List.map fst config.
Proof.
  induction config as [|[n t] config IH]; intros o o' Hnd Hnew Hrun.
  - cbn in Hrun. injection Hrun as <-. cbn. now rewrite app_nil_r.
  - cbn [List.map fst] in Hnd, Hnew. apply NoDup_cons in Hnd as [Hn Hnd].
    cbn [for_of fst snd] in Hrun. unfold bind in Hrun.
    destruct (register_entry_cases n t o)
      as [(c & tools & Hc & Hl & Heq)|(e & Heq & _)];
      rewrite Heq in Hrun; [|discriminate].
    pose proof (fun Hrest => IH _ o' Hnd Hrest Hrun) as Hlater.
    rewrite Hlater by
      (intros m Hm; cbn [servers bind_server];
       rewrite lookup_insert_ne by (intros ->; contradiction);
       apply Hnew; right; exact Hm).
    cbn [servers_order bind_server]. rewrite (Hnew n) by left.
    cbn [List.map fst]. now rewrite <- app_assoc.
Qed.

(** X19: [cleanup] closes the clients in the order in which the servers
    were first registered, which is the order the server map yields them
    in, and stops at the first [close] that fails: it fails with that
    error, and the clients of the servers registered after the failing one
    are never closed. *)
Theorem cleanup_stops_at_first_failing_close o before srv after e done :
  servers_values o = before ++ srv :: after ->
  Forall (fun s => client_close (client s) = inr tt) before ->
  client_close (client srv) = inl e ->
  cleanup o done
  = (inl e, done ++ List.map client before ++ [client srv]).
Proof.
  intros Hvalues Hbefore Hfail. unfold cleanup. rewrite Hvalues, for_of_app.
  rewrite (close_all before done Hbefore). cbn [for_of]. unfold bind.
  rewrite Hfail, <- app_assoc. reflexivity.
Qed.

Lemma prompt_loop_keeps o inputs : forall s,
  let out := prompt_loop o inputs s in
  reported (snd out) = reported s
  /\ closed (snd out) = closed s
  /\ events s `prefix_of` events (snd out)
  /\ printed s `prefix_of` printed (snd out).
Proof.
  induction inputs as [|message rest IH]; intros s; cbv zeta; cbn [prompt_loop].
  - repeat split; reflexivity.
  - destruct (String.eqb _ "quit"); [repeat split; reflexivity|].
    assert (Hpre : events s `prefix_of`
                     trace (snd (processQuery o message
                                   {| messages := []; trace := events s |}))).
    { destruct (processQuery_history o message
                  {| messages := []; trace := events s |})
        as (r1 & served & evs & msgs & more & _ & _ & Ht).
      rewrite Ht. eexists. reflexivity. }
    destruct (processQuery o message _) as [[e|response] st]; cbn [snd] in *.
    + repeat split; [exact Hpre|reflexivity].
    + match goal with
      | |- context [prompt_loop o rest ?s1] =>
          destruct (IH s1) as (Hr & Hc & He & Hp)
      end.
      cbn [reported closed events printed] in *.
      repeat split; [assumption|assumption| |].
      * etransitivity; eassumption.
      * etransitivity; [|exact Hp]. now exists [newline +:+ response].
Qed.

(** X20: once the servers are registered, the program ends with exit code
    0 as soon as the loop ends, be it by [quit] or by a query that failed,
    provided the client of every registered server closes.  Every server of
    the map has then had its client closed, each once and in the order of
    first registration, which for a configuration without a repeated name
    is the order of the configuration; the error of the failed query is
    written nowhere. *)
Theorem session_ends_with_exit_zero cfg config o inputs s ending s' :
  JsText.truthy (process_env "OPENAI_API_KEY") = true ->
  loadConfig = inr cfg ->
  readConfig (lc_serverConfig cfg) = inr config ->
  registerServersFromConfig (lc_serverConfig cfg)
    (MCPOrchestrator_new (lc_llm cfg) (lc_systemPrompt cfg))
  = (inr tt, o) ->
  prompt_loop o inputs s = (ending, s') ->
  ending <> Starved ->
  (forall key srv,
      servers o !! key = Some srv -> client_close (client srv) = inr tt) ->
  index inputs s
  = (Exit 0,
     {| events := events s';
        printed := printed s';
        reported := reported s;
        closed := closed s ++ List.map client (servers_values o) |})
  /\ (forall key srv, servers o !! key = Some srv -> srv ∈ servers_values o)
  /\ List.map name (servers_values o) = servers_order o
  /\ NoDup (servers_order o)
  /\ (NoDup (List.map fst config) -> servers_order o = List.map fst config).
Proof.
  intros Hkey Hcfg Hread Hreg Hloop Hend Hclose.
  assert (Ho : o = snd (for_of [ViaConfig (lc_serverConfig cfg)] register
                          (MCPOrchestrator_new (lc_llm cfg)
                             (lc_systemPrompt cfg)))).
  { rewrite <- from_config_is_registration, Hreg. reflexivity. }
  assert (Hok : servers_order_ok o) by (rewrite Ho; apply registered_order_ok).
  assert (Hown : bindings_consistent o).
  { rewrite Ho. apply (registration_invariant bindings_consistent).
    - intros o1 n c t tools Ho1 _ _. apply bind_server_consistent. exact Ho1.
    - intros k srv Hk. cbn in Hk. rewrite lookup_empty in Hk. discriminate. }
  destruct (servers_values_bindings o Hok Hown) as [Hall Hnames].
  split; [|split; [exact Hall|split; [exact Hnames|split; [apply Hok|]]]].
  - assert (Hvalues : Forall (fun srv => client_close (client srv) = inr tt)
                        (servers_values o)).
    { apply Forall_forall. intros srv Hsrv. unfold servers_values in Hsrv.
      apply list_elem_of_omap in Hsrv as (key & _ & Hsrv). eauto. }
    unfold index, main. rewrite Hkey, Hcfg, Hreg, Hloop.
    destruct (prompt_loop_keeps o inputs s) as (Hr & Hc & _ & _).
    rewrite Hloop in Hr, Hc. cbn [snd] in Hr, Hc.
    unfold finally, cleanup. rewrite (close_all _ _ Hvalues), Hr, Hc.
    destruct ending; [reflexivity|reflexivity|contradiction].
  - intros Hnd. rewrite registerServersFromConfig_entries, Hread in Hreg.
    pose proof (fun Hnew => entries_order config _ o Hnd Hnew Hreg) as Horder.
    rewrite Horder by (intros n _; cbn; apply lookup_empty).
    reflexivity.
Qed.

Lemma entries_fail_at done failed rest e : forall o,
  forallb starts done = true ->
  startup_error failed = Some e ->
  fst (for_of (done ++ failed :: rest)
         (fun entry => register_entry (fst entry) (snd entry)) o)
  = inl e.
Proof.
  induction done as [|[n t] done IH]; intros o Hdone Hfail.
  - cbn [app for_of]. unfold bind.
    destruct (register_entry_cases (fst failed) (snd failed) o)
      as [(c & tools & Hc & Hl & _)|(e' & -> & He)].
    + unfold startup_error in Hfail. rewrite Hc, Hl in Hfail. discriminate.
    + cbn [fst]. unfold startup_error in Hfail.
      destruct He as [He|(c & Hc & He)].
      * rewrite He in Hfail. congruence.
      * rewrite Hc, He in Hfail. congruence.
  - cbn [forallb] in Hdone. apply andb_prop in Hdone as [Hstart Hdone].
    cbn [app for_of fst snd]. unfold bind.
    destruct (register_entry_cases n t o)
      as [(c & tools & Hc & Hl & ->)|(e' & _ & He)].
    + apply IH; assumption.
    + unfold starts in Hstart. cbn [fst snd] in Hstart.
      destruct He as [He|(c & Hc & He)].
      * rewrite He in Hstart. discriminate.
      * rewrite Hc, He in Hstart. discriminate.
Qed.

(** X21: when a backend of the server configuration fails to start, the
    program ends with that backend's error without calling [cleanup]: no
    client is closed, although the backends listed before the failing one
    have been connected. *)
Theorem failed_startup_closes_nothing cfg done failed rest e inputs s :
  JsText.truthy (process_env "OPENAI_API_KEY") = true ->
  loadConfig = inr cfg ->
  readConfig (lc_serverConfig cfg) = inr (done ++ failed :: rest) ->
  forallb starts done = true ->
  startup_error failed = Some e ->
  index inputs s = (Unhandled e, s).
Proof.
  intros Hkey Hcfg Hread Hdone Hfail.
  unfold index, main. rewrite Hkey, Hcfg.
  pose proof (entries_fail_at done failed rest e
                (MCPOrchestrator_new (lc_llm cfg) (lc_systemPrompt cfg))
                Hdone Hfail) as Hrun.
  rewrite registerServersFromConfig_entries, Hread.
  destruct (for_of _ _ _) as [[e'|[]] o']; cbn [fst] in Hrun;
    [congruence|discriminate].
Qed.

(** X22: the prompt loop reads the terminal line by line: run on some
    lines followed by more lines, it is the loop on the first lines, and,
    only if that one is left waiting for input, the loop on the further
    lines from the state reached.  After [quit] or a failed query nothing
    more is read. *)
Theorem prompt_loop_app o before more s :
  prompt_loop o (before ++ more) s
  = match prompt_loop o before s with
    | (Starved, s') => prompt_loop o more s'
    | ended => ended
    end.
Proof.
  revert s. induction before as [|message rest IH]; intros s; [reflexivity|].
  cbn [app prompt_loop].
  destruct (String.eqb _ "quit"); [reflexivity|].
  destruct (processQuery o message _) as [[e|response] st]; [reflexivity|].
  apply IH.
Qed.

(** X23: in the current loop a failed query is the end: when the loop ends
    by an error, that error is the failure of one of the lines before the
    first [quit], the lines before it were answered, one printed answer
    each, and no line after it was asked. *)
Theorem prompt_loop_ends_at_first_failure o inputs s e s' :
  prompt_loop o inputs s = (Threw e, s') ->
  exists answered failed unread mid,
    before_quit inputs = answered ++ failed :: unread
    /\ prompt_loop o answered s = (Starved, mid)
    /\ fst (processQuery o failed {| messages := []; trace := events mid |})
       = inl e
    /\ events s'
       = trace (snd (processQuery o failed
                       {| messages := []; trace := events mid |}))
    /\ length (printed s') = length (printed s) + length answered.
Proof.
  revert s. induction inputs as [|message rest IH]; intros s;
    cbn [prompt_loop before_quit]; [discriminate|].
  unfold is_quit. destruct (String.eqb _ "quit") eqn:Hq; [discriminate|].
  destruct (processQuery o message _) as [[e1|response] st] eqn:Hrun.
  - intros [= <- <-]. exists [], message, (before_quit rest), s.
    rewrite Hrun. cbn. repeat split; lia.
  - intros Hloop.
    destruct (IH _ Hloop) as (answered & failed & unread & mid
                              & Hb & Hans & Hf & He & Hlen).
    exists (message :: answered), failed, unread, mid.
    split; [rewrite Hb; reflexivity|].
    split; [cbn [prompt_loop]; rewrite Hq, Hrun; exact Hans|].
    split; [exact Hf|]. split; [exact He|].
    rewrite Hlen. cbn [printed length]. rewrite length_app. cbn. lia.
Qed.

(** X24: the older loop goes on after a failed query: it never ends by an
    error, it ends by [quit] exactly when a line is [quit], and every line
    before the first [quit] is asked and leaves either a printed answer or a
    reported error. *)
Theorem legacy_loop_answers_every_line openai o inputs s :
  let out := legacy_prompt_loop openai o inputs s in
  fst out = (if existsb is_quit inputs then Quit else Starved)
  /\ length (printed (snd out)) + length (reported (snd out))
     = length (printed s) + length (reported s) + length (before_quit inputs)
  /\ closed (snd out) = closed s.
Proof.
  revert s. induction inputs as [|message rest IH]; intros s; cbv zeta;
    cbn [legacy_prompt_loop existsb before_quit].
  - cbn. repeat split; lia.
  - unfold is_quit. destruct (String.eqb _ "quit"); cbn [orb].
    + cbn. repeat split; lia.
    + destruct (Legacy.processQuery openai o message _) as [[e|response] st];
        match goal with
        | |- context [legacy_prompt_loop openai o rest ?s1] =>
            destruct (IH s1) as (Hend & Hlen & Hcl)
        end;
        cbn [printed reported closed] in *;
        (split; [exact Hend|]); (split; [|exact Hcl]);
        rewrite Hlen, length_app; cbn; lia.
Qed.

Lemma lower_letter (c x : ascii) :
  In x ["q"; "u"; "i"; "t"]%char ->
  Ascii.eqb (JsText.lower c) x
  = Ascii.eqb c x || Ascii.eqb c (ascii_of_nat (nat_of_ascii x - 32)).
Proof.
  intros [<-|[<-|[<-|[<-|[]]]]];
    destruct c as [[] [] [] [] [] [] [] []]; reflexivity.
Qed.

(** X25: a line ends the session exactly when it is the word [quit] in any
    mix of upper and lower case with nothing before or after it: four
    code units, one of [q Q], one of [u U], one of [i I], one of [t T].
    A line with a space around the word is taken as a query. *)
Theorem quit_is_the_bare_word message :
  is_quit message = true
  <-> exists c1 c2 c3 c4,
        message = String c1 (String c2 (String c3 (String c4 EmptyString)))
        /\ (c1 = "q" \/ c1 = "Q")%char /\ (c2 = "u" \/ c2 = "U")%char
        /\ (c3 = "i" \/ c3 = "I")%char /\ (c4 = "t" \/ c4 = "T")%char.
Proof.
  assert (Hletter : forall c x,
    In x ["q"; "u"; "i"; "t"]%char ->
    Ascii.eqb (JsText.lower c) x = true
    <-> c = x \/ c = ascii_of_nat (nat_of_ascii x - 32)).
  { intros c x Hx. rewrite (lower_letter c x Hx), orb_true_iff.
    rewrite !Ascii.eqb_eq. reflexivity. }
  assert (Hq : In "q"%char ["q"; "u"; "i"; "t"]%char) by (cbn; auto).
  assert (Hu : In "u"%char ["q"; "u"; "i"; "t"]%char) by (cbn; auto).
  assert (Hi : In "i"%char ["q"; "u"; "i"; "t"]%char) by (cbn; auto).
  assert (Ht : In "t"%char ["q"; "u"; "i"; "t"]%char) by (cbn; auto).
  unfold is_quit. split.
  - destruct message as [|c1 [|c2 [|c3 [|c4 [|c5 rest]]]]];
      cbn [JsText.toLowerCase String.eqb]; try discriminate;
      repeat match goal with
             | |- (if ?b then _ else _) = true -> _ =>
                 let Hb := fresh "Hb" in
                 destruct b eqn:Hb; [|discriminate]
             end; try discriminate.
    intros _. exists c1, c2, c3, c4. split; [reflexivity|].
    apply (Hletter c1 _ Hq) in Hb. apply (Hletter c2 _ Hu) in Hb0.
    apply (Hletter c3 _ Hi) in Hb1. apply (Hletter c4 _ Ht) in Hb2.
    auto.
  - intros (c1 & c2 & c3 & c4 & -> & H1 & H2 & H3 & H4).
    cbn [JsText.toLowerCase String.eqb].
    apply (Hletter c1 _ Hq) in H1. apply (Hletter c2 _ Hu) in H2.
    apply (Hletter c3 _ Hi) in H3. apply (Hletter c4 _ Ht) in H4.
    rewrite H1, H2, H3, H4. reflexivity.
Qed.

End ProgramRuns.

(** * The further properties on concrete inputs *)

Section FurtherWitnesses.
Import Sample SampleHost.

(** X1, an instance: the tool [get.weather] of the server [w]. *)
Lemma advertised_names_stay_in_charset_witness :
  let f := toolDescriptor "w" (native "get.weather" "Current weather") in
  qualifiedName f = "w_get_weather"
  /\ all_in_class (qualifiedName f) = true
  /\ JsString.sanitize (qualifiedName f) = qualifiedName f
  /\ tool_type f = "function".
Proof.
  intros f. split; [reflexivity|].
  apply (advertised_names_stay_in_charset
           [ViaConfig "./weather.json"] asks_once "prompt" f).
  apply list_elem_of_lookup. exists 0. vm_compute. reflexivity.
Defined.

(** X4, an instance: a configuration of three servers whose second backend
    does not exist. *)
Lemma registerServersFromConfig_progress_witness :
  let out := @registerServersFromConfig broken_platform "./broken.json"
               (fresh asks_once) in
  fst out = inl (Rejected "spawn ghost-server ENOENT")
  /\ List.map qualifiedName (allFunctions (snd out)) = ["files_read"]
  /\ exists done rest,
       [("files", stdio "files-server"); ("ghost", stdio "ghost-server");
        ("math", stdio "math-server")] = done ++ rest
       /\ forallb (@starts broken_platform) done = true
       /\ allFunctions (snd out)
          = allFunctions (fresh asks_once)
              ++ flat_map (@listed broken_platform) done
       /\ (forall k, is_Some (servers (snd out) !! k)
                     <-> is_Some (servers (fresh asks_once) !! k)
                         \/ k ∈ List.map fst done)
       /\ match rest with
          | [] => fst out = inr tt
          | failed :: _ =>
              exists e, @startup_error broken_platform failed = Some e
                        /\ fst out = inl e
          end.
Proof.
  intros out. split; [vm_compute; reflexivity|].
  split; [vm_compute; reflexivity|].
  exact (@registerServersFromConfig_progress broken_platform "./broken.json"
           _ (fresh asks_once) eq_refl).
Defined.

(** X6, an instance: the direct answer of the specification. *)
Lemma answer_without_tool_calls_witness :
  let o := started (GPT (scripted [reply (Some "4") None])) "./mcp.servers.json" in
  processQuery o "what is 2+2" idle
  = (inr "4",
     {| messages := seed o "what is 2+2";
        trace := [EvChat (seed o "what is 2+2") (Some (allFunctions o))
                    (Some auto) (reply (Some "4") None)] |}).
Proof.
  intros o.
  exact (answer_without_tool_calls o "what is 2+2" idle
           {| rm_content := Some "4"; rm_tool_calls := None |} []
           eq_refl (or_introl eq_refl)).
Defined.

Lemma add22_dispatched :
  let o := started asks_once "./mcp.servers.json" in
  Dispatched o
    (trace idle ++ [first_chat o "what is 2+2" (reply None (Some [add22]))])
    [add22] [add_event] add_pair.
Proof.
  intros o.
  refine (Dispatched_cons o _ add22
            (toolDescriptor "math" (native "add" "Adds a and b"))
            (binding "math" "math-server" math_tools)
            (JObj [("a", JNum 2); ("b", JNum 2)])
            {| tr_content := Some (JNum 4) |} [] [] [] _ _ _ _ _).
  - vm_compute. reflexivity.
  - vm_compute. reflexivity.
  - vm_compute. reflexivity.
  - vm_compute. reflexivity.
  - apply Dispatched_nil.
Qed.

(** X7, an instance: the tool round of the specification. *)
Lemma answer_after_tool_round_witness :
  let o := started asks_once "./mcp.servers.json" in
  let first := first_chat o "what is 2+2" (reply None (Some [add22])) in
  let history := seed o "what is 2+2" ++ add_pair in
  processQuery o "what is 2+2" idle
  = (inr "The answer is 4",
     {| messages := history;
        trace := [first; add_event;
                  EvChat history None None
                    (reply (Some "The answer is 4") None)] |}).
Proof.
  intros o first history.
  exact (answer_after_tool_round o "what is 2+2" idle
           {| choices := [ {| message := Some {| rm_content := None;
                                rm_tool_calls := Some [add22] |} |} ] |}
           add22 [] [add_event] add_pair eq_refl eq_refl add22_dispatched).
Defined.

(** X8, an instance: the server [my_server], resolved as [my]. *)
Lemma unknown_server_aborts_query_witness :
  let toolCall := call "c1" "my_server_read" "{" in
  let o := started (GPT (scripted [reply None (Some [toolCall])]))
             "./lonely.json" in
  processQuery o "read it" idle
  = (inl (UnknownServerError "my"),
     {| messages := seed o "read it";
        trace := [first_chat o "read it" (reply None (Some [toolCall]))] |}).
Proof.
  intros toolCall o.
  refine (unknown_server_aborts_query o "read it" idle
            {| choices := [ {| message := Some {| rm_content := None;
                                 rm_tool_calls := Some [toolCall] |} |} ] |}
            [] toolCall [] [] []
            (toolDescriptor "my_server" (native "read" "Reads a file"))
            eq_refl eq_refl (Dispatched_nil o _) _ _).
  - vm_compute. reflexivity.
  - vm_compute. reflexivity.
Defined.

(** X9, an instance: [math_add] called with an unfinished object. *)
Lemma malformed_arguments_abort_query_witness :
  let toolCall := call "c1" "math_add" "{" in
  let o := started (GPT (scripted [reply None (Some [toolCall; add22])]))
             "./mcp.servers.json" in
  processQuery o "what is 2+2" idle
  = (inl SyntaxError,
     {| messages := seed o "what is 2+2";
        trace := [first_chat o "what is 2+2"
                    (reply None (Some [toolCall; add22]))] |}).
Proof.
  intros toolCall o.
  refine (malformed_arguments_abort_query o "what is 2+2" idle
            {| choices := [ {| message := Some {| rm_content := None;
                                 rm_tool_calls := Some [toolCall; add22] |} |} ] |}
            [] toolCall [add22] [] []
            (toolDescriptor "math" (native "add" "Adds a and b"))
            (binding "math" "math-server" math_tools)
            eq_refl eq_refl (Dispatched_nil o _) _ _ _).
  - vm_compute. reflexivity.
  - vm_compute. reflexivity.
  - vm_compute. reflexivity.
Defined.

(** X10, an instance: the backend [w] rejects [get_weather]. *)
Lemma backend_rejection_aborts_query_witness :
  let toolCall := call "c1" "w_get_weather" "{}" in
  let o := started (GPT (scripted [reply None (Some [toolCall])]))
             "./weather.json" in
  processQuery o "weather?" idle
  = (inl (Rejected "Tool not found: get_weather"),
     {| messages := seed o "weather?";
        trace := [first_chat o "weather?" (reply None (Some [toolCall]));
                  EvCallTool "w" "get_weather" (JObj [])
                    (inl (Rejected "Tool not found: get_weather"))] |}).
Proof.
  intros toolCall o.
  refine (backend_rejection_aborts_query o "weather?" idle
            {| choices := [ {| message := Some {| rm_content := None;
                                 rm_tool_calls := Some [toolCall] |} |} ] |}
            [] toolCall [] [] []
            (toolDescriptor "w" (native "get.weather" "Current weather"))
            (binding "w" "weather-server" weather_tools)
            (JObj []) (Rejected "Tool not found: get_weather")
            eq_refl eq_refl (Dispatched_nil o _) _ _ _ _).
  - vm_compute. reflexivity.
  - vm_compute. reflexivity.
  - vm_compute. reflexivity.
  - vm_compute. reflexivity.
Defined.

(** X11, an instance: [math_add] reaches the backend [math] as [add]. *)
Lemma dispatch_reaches_owner_witness :
  let o := started asks_once "./mcp.servers.json" in
  dispatch o add22 idle
  = (inr tt, {| messages := add_pair; trace := [add_event] |}).
Proof.
  intros o.
  refine (dispatch_reaches_owner o "math" (native "add" "Adds a and b")
            (binding "math" "math-server" math_tools) add22
            (JObj [("a", JNum 2); ("b", JNum 2)]) idle
            eq_refl eq_refl _ _ eq_refl _).
  - apply list_elem_of_lookup. exists 1. vm_compute. reflexivity.
  - vm_compute. reflexivity.
  - vm_compute. reflexivity.
Defined.

(** X13, an instance: the provider answers with a text block and a
    tool-use block. *)
Lemma claude_query_is_one_model_call_witness :
  let anthropic : Anthropic.Sdk := fun _ _ => inr tool_use_message in
  let o := started (Claude anthropic) "./mcp.servers.json" in
  processQuery o "what is 2+2" idle
  = (inr "Let me add these.",
     {| messages := seed o "what is 2+2";
        trace := [EvChat (seed o "what is 2+2") (Some (allFunctions o))
                    (Some auto)
                    (reply (Some "Let me add these.") (Some []))] |}).
Proof.
  intros anthropic o.
  exact (claude_query_is_one_model_call o anthropic "what is 2+2" idle eq_refl).
Defined.

(** X14, an instance: a tool-use block, a text block whose text is a
    number, then two text blocks. *)
Lemma claude_content_is_first_text_block_witness :
  Anthropic.chat (fun _ _ => inr mixed_message) [] [] None None
  = reply (Some "Hello.") (Some []).
Proof.
  refine (claude_content_is_first_text_block
            (fun _ _ => inr mixed_message) [] [] None None mixed_message
            (take 2 (Anthropic.content mixed_message))
            {| Anthropic.type := "text"; Anthropic.text := Some (JStr "Hello.");
               Anthropic.id := None; Anthropic.name := None;
               Anthropic.input := None |}
            (drop 3 (Anthropic.content mixed_message)) "Hello."
            eq_refl eq_refl _ eq_refl eq_refl).
  constructor; [left; discriminate|].
  constructor; [right; intros t; discriminate|constructor].
Defined.

(** X15, an instance: a response made of one tool-use block. *)
Lemma claude_without_text_block_is_empty_witness :
  Anthropic.chat (fun _ _ => inr tool_use_only) [] [] None None
  = reply (Some EmptyString) (Some []).
Proof.
  refine (claude_without_text_block_is_empty
            (fun _ _ => inr tool_use_only) [] [] None None tool_use_only
            eq_refl _).
  constructor; [discriminate|constructor].
Defined.

(** X16, an instance: the tool round of the specification, on a client
    that does not look at the request. *)
Lemma legacy_agrees_with_gpt_adapter_witness :
  let openai := scripted_openai one_round in
  let o := snd (registerServersFromConfig "./mcp.servers.json"
                  (MCPOrchestrator_new (gpt_on one_round) Legacy.SYSTEM_PROMPT)) in
  Legacy.processQuery openai o "what is 2+2" idle
  = processQuery o "what is 2+2" idle
  /\ fst (processQuery o "what is 2+2" idle) = inr "The answer is 4".
Proof.
  intros openai o. split; [|vm_compute; reflexivity].
  exact (legacy_agrees_with_gpt_adapter openai o "what is 2+2" idle
           (fun _ _ => eq_refl) eq_refl eq_refl).
Defined.

(** X17, an instance: a configuration for the GPT adapter. *)
Lemma loadConfig_returns_checked_fields_witness :
  let H := host "gpt" "./mcp.servers.json" keys one_round "none" in
  let cfg := loaded (gpt_on one_round) "./mcp.servers.json" in
  @loadConfig platform H = inr cfg
  /\ exists content parsed,
       fs_readFile "./mcp.llm.json" = inr content
       /\ JSON_parse content = Some parsed
       /\ JsText.property "systemPrompt" parsed
          = Some (JStr "You are a helpful agent.")
       /\ JsText.trim "You are a helpful agent." <> EmptyString.
Proof.
  intros H cfg.
  assert (Hcfg : @loadConfig platform H = inr cfg) by (vm_compute; reflexivity).
  split; [exact Hcfg|].
  destruct (@loadConfig_returns_checked_fields platform H cfg Hcfg)
    as (content & parsed & H1 & H2 & H3 & H4 & _).
  exists content, parsed. auto.
Defined.

(** X18, an instance: a configuration for the Claude adapter with only
    [CLAUDE_API_KEY] set. *)
Lemma claude_still_needs_openai_key_witness :
  let H := host "claude" "./mcp.servers.json" [("CLAUDE_API_KEY", "sk-claude")]
             [] "none" in
  let cfg := loaded (Claude (fun _ _ => inr tool_use_message))
               "./mcp.servers.json" in
  @loadConfig platform H = inr cfg
  /\ (exists key,
        process_env "CLAUDE_API_KEY" = Some key
        /\ lc_llm cfg = Claude (new_Anthropic key))
  /\ @index platform H ["hello"] blank
     = (Unhandled (JsError "OPENAI_API_KEY is not set"), blank).
Proof.
  intros H cfg.
  assert (Hcfg : @loadConfig platform H = inr cfg) by (vm_compute; reflexivity).
  split; [exact Hcfg|].
  exact (@claude_still_needs_openai_key platform H cfg ["hello"] blank
           Hcfg eq_refl).
Defined.

(** X19, an instance: three servers registered as files, math and w; the
    client of math does not close, so the one of w is never closed. *)
Lemma cleanup_stops_at_first_failing_close_witness :
  let H := host "gpt" "./mcp.servers.json" keys [] "mcp-math" in
  let o := snd (for_of [ViaConfig "./mcp.servers.json";
                        ViaConfig "./weather.json"]
                  register (fresh asks_once)) in
  List.map name (servers_values o) = ["files"; "math"; "w"]
  /\ @cleanup H o []
     = (inl (Rejected "close failed"),
        [backend "mcp-files" files_tools; backend "mcp-math" math_tools]).
Proof.
  intros H o. split; [vm_compute; reflexivity|].
  refine (@cleanup_stops_at_first_failing_close H o
            [binding "files" "files-server" files_tools]
            (binding "math" "math-server" math_tools)
            [binding "w" "weather-server" weather_tools]
            (Rejected "close failed") [] _ _ eq_refl).
  - vm_compute. reflexivity.
  - constructor; [reflexivity|constructor].
Defined.

(** X20, an instance: one query, then [QUIT], then a line nobody reads;
    the clients are closed in the order of the configuration. *)
Lemma session_ends_with_exit_zero_witness :
  let H := host "gpt" "./mcp.servers.json" keys one_round "none" in
  let out := @index platform H ["what is 2+2"; "QUIT"; "what is 3+3"] blank in
  fst out = Exit 0
  /\ printed (snd out) = [newline +:+ "The answer is 4"]
  /\ reported (snd out) = []
  /\ List.map client_name (closed (snd out)) = ["mcp-files"; "mcp-math"].
Proof.
  intros H out. subst out.
  set (cfg := loaded (gpt_on one_round) "./mcp.servers.json").
  set (o := snd (registerServersFromConfig "./mcp.servers.json"
                   (MCPOrchestrator_new (lc_llm cfg) (lc_systemPrompt cfg)))).
  set (inputs := ["what is 2+2"; "QUIT"; "what is 3+3"]).
  destruct (@session_ends_with_exit_zero platform H cfg
              [("files", stdio "files-server"); ("math", stdio "math-server")]
              o inputs blank
              Quit (snd (@prompt_loop platform o inputs blank)))
    as (Hrun & _ & _ & _ & Horder).
  - reflexivity.
  - vm_compute. reflexivity.
  - reflexivity.
  - vm_compute. reflexivity.
  - vm_compute. reflexivity.
  - discriminate.
  - apply (map_Forall_to_list
             (fun _ srv => @client_close H (client srv) = inr tt) (servers o)).
    vm_compute. repeat constructor.
  - rewrite Hrun. vm_compute. repeat split; reflexivity.
Defined.

(** X21, an instance: the second of three backends does not exist. *)
Lemma failed_startup_closes_nothing_witness :
  let H := host "gpt" "./broken.json" keys one_round "none" in
  @index broken_platform H ["what is 2+2"] blank
  = (Unhandled (Rejected "spawn ghost-server ENOENT"), blank).
Proof.
  intros H.
  refine (@failed_startup_closes_nothing broken_platform H
            (loaded (gpt_on one_round) "./broken.json")
            [("files", stdio "files-server")] ("ghost", stdio "ghost-server")
            [("math", stdio "math-server")]
            (Rejected "spawn ghost-server ENOENT") ["what is 2+2"] blank
            eq_refl _ eq_refl eq_refl eq_refl).
  vm_compute. reflexivity.
Defined.

(** X23, an instance: the provider answers once and is then rejected. *)
Lemma prompt_loop_ends_at_first_failure_witness :
  let o := started (gpt_on [reply (Some "hi") None]) "./mcp.servers.json" in
  let inputs := ["hello"; "again"; "quit"; "later"] in
  fst (prompt_loop o inputs blank) = Threw (Rejected "429 rate limit")
  /\ exists answered failed unread mid,
       before_quit inputs = answered ++ failed :: unread
       /\ prompt_loop o answered blank = (Starved, mid)
       /\ fst (processQuery o failed {| messages := []; trace := events mid |})
          = inl (Rejected "429 rate limit")
       /\ events (snd (prompt_loop o inputs blank))
          = trace (snd (processQuery o failed
                          {| messages := []; trace := events mid |}))
       /\ length (printed (snd (prompt_loop o inputs blank)))
          = length (printed blank) + length answered.
Proof.
  intros o inputs.
  assert (Hloop : prompt_loop o inputs blank
                  = (Threw (Rejected "429 rate limit"),
                     snd (prompt_loop o inputs blank)))
    by (vm_compute; reflexivity).
  split; [rewrite Hloop; reflexivity|].
  exact (prompt_loop_ends_at_first_failure o inputs blank _ _ Hloop).
Defined.

End FurtherWitnesses.
